(** * mkv_m3u8_player: the transcoding pipeline of [server.js]

    A shallow embedding of [analyzeStreams], [isAudioStreamAAC],
    [createHLSForStreams], the multer [filename] callback and the
    [/upload] handler, followed by theorems about the master playlist,
    the ffmpeg commands that are issued and the behaviour on failure.

    The external world (ffprobe, ffmpeg, the file system, the console and
    the HTTP response) is modelled by a trace of events.  The two engines
    are oracles that may answer differently at every call: they see the
    whole history of events so far.  [fs.mkdirSync] and [fs.writeFileSync]
    are taken to succeed; a probe answers with well-formed metadata or
    with an error. *)

From Stdlib Require Import Ascii String List Arith Lia.
From stdpp Require Import base option list strings gmap pretty.

Local Open Scope string_scope.
Local Open Scope list_scope.

(** ** Text helpers *)

(** The double quote and the line feed, as one-character strings. *)
Definition dq : string := String (ascii_of_nat 34) EmptyString.
Definition nl : string := String (ascii_of_nat 10) EmptyString.

(** JavaScript [a === b] on strings. *)
Definition streq (a b : string) : bool := String.eqb a b.

(** [Array.prototype.join]: the elements separated by [sep], nothing
    before the first and nothing after the last. *)
Fixpoint join (sep : string) (l : list string) : string :=
  match l with
  | [] => EmptyString
  | [x] => x
  | x :: rest => x +:+ sep +:+ join sep rest
  end.

(** ** Data model *)

(** One entry of [metadata.streams] as ffprobe reports it. *)
Record Stream := {
  codec_type : string;
  codec_name : string;
  tags : option (gmap string string);
}.

Record Metadata := { md_streams : list Stream }.

(** The inventory built by [analyzeStreams]: container indices per type. *)
Record Streams := {
  video : list nat;
  audio : list nat;
  subtitle : list nat;
}.

(** A fluent-ffmpeg command: the input, the output options in the order
    they were added, and the output file. *)
Record Command := {
  cmd_input : string;
  cmd_options : list string;
  cmd_output : string;
}.

Inductive Error :=
| ProbeError     (* ffprobe called back with [err] *)
| FfmpegError    (* the command emitted 'error' *)
| TypeError.     (* property read on [undefined] *)

Inductive Event :=
| EvProbe (path : string) (ok : bool)
| EvMkdir (path : string)
| EvFfmpeg (cmd : Command) (ok : bool)
| EvWriteFile (path content : string)
| EvLog (msg : string)
| EvConsoleError (e : Error)
| EvJson (message streamUrl : string)
| EvSend (status : nat) (body : string).

(** ** The effect monad

    A computation reads the history of events so far and returns either an
    error (a rejected promise or a thrown exception) or a value, together
    with the events it emitted itself, oldest first. *)

Definition M (A : Type) : Type := list Event → (Error + A) * list Event.

Definition ret {A} (a : A) : M A := λ _, (inr a, []).
Definition throw {A} (e : Error) : M A := λ _, (inl e, []).
Definition emit (ev : Event) : M unit := λ _, (inr tt, [ev]).

Definition bind {A B} (m : M A) (f : A → M B) : M B := λ h,
  match m h with
  | (inl e, t1) => (inl e, t1)
  | (inr a, t1) =>
      match f a (h ++ t1) with
      | (r, t2) => (r, t1 ++ t2)
      end
  end.

(** [try { body } catch (error) { handler }] *)
Definition try_catch {A} (body : M A) (handler : Error → M A) : M A := λ h,
  match body h with
  | (inl e, t1) =>
      match handler e (h ++ t1) with
      | (r, t2) => (r, t1 ++ t2)
      end
  | (inr a, t1) => (inr a, t1)
  end.

Declare Scope js_scope.
Delimit Scope js_scope with js.
Notation "x <- m ;; k" := (bind m (λ x, k))
  (at level 100, m at next level, right associativity) : js_scope.
Notation "m ;; k" := (bind m (λ _, k))
  (at level 100, right associativity) : js_scope.
Local Open Scope js_scope.

(** [for (let i = 0; i < xs.length; i++) { const x = xs[i]; body }] and
    [xs.forEach((x, i) => body)], started at index [i]; [s] is the mutable
    state the body updates. *)
Fixpoint for_indexed {A St} (body : nat → A → St → M St)
    (i : nat) (xs : list A) (s : St) : M St :=
  match xs with
  | [] => ret s
  | x :: rest => s' <- body i x s ;; for_indexed body (S i) rest s'
  end.

(** ** Pure pieces of [server.js] *)

(** Line 20: [Date.now() + '-' + file.originalname]. *)
Definition storage_filename (now : N) (originalname : string) : string :=
  pretty now +:+ "-" +:+ originalname.

(** Lines 38-40, one step of the [forEach]. *)
Definition classify (index : nat) (stream : Stream) (streams : Streams) : Streams :=
  let s1 := if streq (codec_type stream) "video"
            then {| video := video streams ++ [index]; audio := audio streams;
                    subtitle := subtitle streams |}
            else streams in
  let s2 := if streq (codec_type stream) "audio"
            then {| video := video s1; audio := audio s1 ++ [index];
                    subtitle := subtitle s1 |}
            else s1 in
  if streq (codec_type stream) "subtitle"
  then {| video := video s2; audio := audio s2;
          subtitle := subtitle s2 ++ [index] |}
  else s2.

(** Line 53: [streams.find((s, idx) => s.codec_type === 'audio' && idx === streamIndex)]. *)
Fixpoint find_audio_at (streamIndex idx : nat) (l : list Stream) : option Stream :=
  match l with
  | [] => None
  | s :: rest =>
      if streq (codec_type s) "audio" && Nat.eqb idx streamIndex
      then Some s
      else find_audio_at streamIndex (S idx) rest
  end.

(** Lines 53-57: the answer of [isAudioStreamAAC] once the probe succeeded. *)
Definition isAAC_of (metadata : Metadata) (streamIndex : nat) : bool :=
  match find_audio_at streamIndex 0 (md_streams metadata) with
  | None => false
  | Some stream => streq (codec_name stream) "aac"
  end.

(** Line 82. *)
Definition isH264_of (streamInfo : Stream) : bool :=
  streq (codec_name streamInfo) "h264".

(** Line 147. *)
Definition unsupported_subtitle (streamInfo : Stream) : bool :=
  streq (codec_name streamInfo) "hdmv_pgs_subtitle"
  || streq (codec_name streamInfo) "subrip".

(** Lines 116 and 152: [streamInfo?.tags?.language || 'und']; the empty
    string is falsy. *)
Definition language_of (streamInfo : option Stream) : string :=
  match streamInfo with
  | None => "und"
  | Some info =>
      match tags info with
      | None => "und"
      | Some t =>
          match t !! "language" with
          | Some l => if streq l EmptyString then "und" else l
          | None => "und"
          end
      end
  end.

(** Lines 85-92: the command for video stream [i]. *)
Definition video_command (filePath outputPath : string) (i streamIndex : nat)
    (isH264 : bool) : Command :=
  {| cmd_input := filePath;
     cmd_options :=
       [ "-map"; "0:" +:+ pretty streamIndex;
         "-f"; "hls";
         "-hls_time"; "10";
         "-hls_list_size"; "0";
         "-hls_segment_filename"; outputPath +:+ "/video_" +:+ pretty i +:+ "_%03d.ts";
         "-c:v"; if isH264 then "copy" else "libx264" ];
     cmd_output := outputPath +:+ "/video_" +:+ pretty i +:+ ".m3u8" |}.

(** Lines 118-125: the command for audio stream [i]. *)
Definition audio_command (filePath outputPath : string) (i streamIndex : nat)
    (isAAC : bool) : Command :=
  {| cmd_input := filePath;
     cmd_options :=
       [ "-map"; "0:" +:+ pretty streamIndex;
         "-c:a"; if isAAC then "copy" else "aac";
         "-f"; "hls";
         "-hls_time"; "10";
         "-hls_list_size"; "0";
         "-hls_segment_filename"; outputPath +:+ "/audio_" +:+ pretty i +:+ "_%03d.ts" ];
     cmd_output := outputPath +:+ "/audio_" +:+ pretty i +:+ ".m3u8" |}.

(** Lines 154-156: the command for subtitle stream [i]. *)
Definition subtitle_command (filePath outputPath : string) (i streamIndex : nat)
    : Command :=
  {| cmd_input := filePath;
     cmd_options := [ "-map"; "0:" +:+ pretty streamIndex; "-f"; "webvtt" ];
     cmd_output := outputPath +:+ "/sub_" +:+ pretty i +:+ ".vtt" |}.

(** Line 94. *)
Definition video_entry (i : nat) : string :=
  "#EXT-X-STREAM-INF:BANDWIDTH=4000000,AUDIO=" +:+ dq +:+ "audios" +:+ dq
  +:+ ",SUBTITLES=" +:+ dq +:+ "subs" +:+ dq +:+ nl
  +:+ "video_" +:+ pretty i +:+ ".m3u8".

(** [i === 0 ? 'YES' : 'NO'] *)
Definition yes_no (i : nat) : string :=
  if Nat.eqb i 0 then "YES" else "NO".

(** Line 127. *)
Definition audio_entry (lang : string) (i : nat) : string :=
  "#EXT-X-MEDIA:TYPE=AUDIO,GROUP-ID=" +:+ dq +:+ "audio" +:+ dq
  +:+ ",LANGUAGE=" +:+ dq +:+ lang +:+ dq
  +:+ ",NAME=" +:+ dq +:+ lang +:+ dq
  +:+ ",AUTOSELECT=YES,DEFAULT=" +:+ yes_no i
  +:+ ",URI=" +:+ dq +:+ "audio_" +:+ pretty i +:+ ".m3u8" +:+ dq.

(** Line 167. *)
Definition subtitle_entry (lang : string) (i : nat) : string :=
  "#EXT-X-MEDIA:TYPE=SUBTITLES,GROUP-ID=" +:+ dq +:+ "subs" +:+ dq
  +:+ ",LANGUAGE=" +:+ dq +:+ lang +:+ dq
  +:+ ",NAME=" +:+ dq +:+ lang +:+ dq
  +:+ ",AUTOSELECT=YES,DEFAULT=" +:+ yes_no i
  +:+ ",URI=" +:+ dq +:+ "sub_" +:+ pretty i +:+ ".m3u8" +:+ dq.

(** Lines 159-162: the stream-local playlist written next to the track. *)
Definition sub_m3u8_content (i : nat) : string :=
  "#EXTM3U" +:+ nl
  +:+ "        WEBVTT" +:+ nl
  +:+ "        #EXTINF:-1," +:+ nl
  +:+ "        sub_" +:+ pretty i +:+ ".vtt".

(** Lines 177-181. *)
Definition master_playlist (audioEntries subtitleEntries playlistEntries : list string)
    : string :=
  join nl (audioEntries ++ subtitleEntries ++ playlistEntries).

(** ** Node's [path] module, as far as [server.js] uses it

    [path.join(a, b)] for a normalised directory [a] and a single file
    name [b] that is neither empty nor made of dots. *)
Definition path_join (a b : string) : string := a +:+ "/" +:+ b.

(** The last non-empty component of a path: [last] is the last finished
    component, [cur] the one being read. *)
Fixpoint basename_go (last cur s : string) : string :=
  match s with
  | EmptyString => if streq cur EmptyString then last else cur
  | String c rest =>
      if Ascii.eqb c "/"
      then basename_go (if streq cur EmptyString then last else cur) EmptyString rest
      else basename_go last (cur +:+ String c EmptyString) rest
  end.

Definition basename (s : string) : string :=
  basename_go EmptyString EmptyString s.

Fixpoint has_dot (s : string) : bool :=
  match s with
  | EmptyString => false
  | String c rest => Ascii.eqb c "." || has_dot rest
  end.

(** [s] without its last dot and what follows it; [s] when it has no dot. *)
Fixpoint before_last_dot (s : string) : string :=
  match s with
  | EmptyString => EmptyString
  | String c rest =>
      if has_dot rest then String c (before_last_dot rest)
      else if Ascii.eqb c "." then EmptyString
      else s
  end.

(** [path.parse(p).name]: the base name without its extension.  A base
    name whose only dot is its first character, and the base name [..],
    have no extension. *)
Definition path_parse_name (p : string) : string :=
  let base := basename p in
  if streq base ".." then base
  else match before_last_dot base with
       | EmptyString => base
       | name => name
       end.

(** ** The server *)

Section Server.

(** The media engine: what ffprobe answers and whether an ffmpeg command
    ends or errors, given everything that happened before the call. *)
Variable ffprobe : list Event → string → option Metadata.
Variable ffmpeg : list Event → Command → bool.

(** Line 13: [path.join(__dirname, 'output')]. *)
Variable outputDir : string.

(** [ffmpeg.ffprobe(filePath, (err, metadata) => ...)] as a promise. *)
Definition probe (filePath : string) : M Metadata := λ h,
  match ffprobe h filePath with
  | Some metadata => (inr metadata, [EvProbe filePath true])
  | None => (inl ProbeError, [EvProbe filePath false])
  end.

(** [command.on('end', resolve).on('error', reject).run()] *)
Definition run (cmd : Command) : M unit := λ h,
  if ffmpeg h cmd
  then (inr tt, [EvFfmpeg cmd true])
  else (inl FfmpegError, [EvFfmpeg cmd false]).

(** Lines 25-46. *)
Definition analyzeStreams (filePath : string) : M Streams :=
  metadata <- probe filePath ;;
  for_indexed
    (λ index stream streams,
       emit (EvLog ("Stream " +:+ pretty index +:+ ": " +:+ codec_type stream
                    +:+ " - " +:+ codec_name stream)) ;;
       ret (classify index stream streams))
    0 (md_streams metadata)
    {| video := []; audio := []; subtitle := [] |}.

(** Lines 48-60. *)
Definition isAudioStreamAAC (filePath : string) (streamIndex : nat) : M bool :=
  metadata <- probe filePath ;;
  ret (isAAC_of metadata streamIndex).

(** Lines 76-81, 109-114 and 140-145: [metadata.streams[streamIndex]],
    [undefined] when the index is out of range. *)
Definition streamInfo_at (filePath : string) (streamIndex : nat)
    : M (option Stream) :=
  metadata <- probe filePath ;;
  ret (md_streams metadata !! streamIndex).

(** Lines 72-100, the body of the video loop. *)
Definition video_body (filePath outputPath : string)
    (i streamIndex : nat) (playlistEntries : list string) : M (list string) :=
  streamInfo <- streamInfo_at filePath streamIndex ;;
  match streamInfo with
  | None => throw TypeError
  | Some info =>
      run (video_command filePath outputPath i streamIndex (isH264_of info)) ;;
      ret (playlistEntries ++ [video_entry i])
  end.

(** Lines 105-133, the body of the audio loop. *)
Definition audio_body (filePath outputPath : string)
    (i streamIndex : nat) (audioEntries : list string) : M (list string) :=
  isAAC <- isAudioStreamAAC filePath streamIndex ;;
  streamInfo <- streamInfo_at filePath streamIndex ;;
  let lang := language_of streamInfo in
  run (audio_command filePath outputPath i streamIndex isAAC) ;;
  ret (audioEntries ++ [audio_entry lang i]).

(** Lines 136-174, the body of the subtitle loop. *)
Definition subtitle_body (filePath outputPath : string)
    (i streamIndex : nat) (subtitleEntries : list string) : M (list string) :=
  streamInfo <- streamInfo_at filePath streamIndex ;;
  match streamInfo with
  | None => throw TypeError
  | Some info =>
      if unsupported_subtitle info
      then
        emit (EvLog ("Skipping unsupported subtitle codec: " +:+ codec_name info)) ;;
        ret subtitleEntries
      else
        let lang := language_of streamInfo in
        run (subtitle_command filePath outputPath i streamIndex) ;;
        emit (EvWriteFile (outputPath +:+ "/sub_" +:+ pretty i +:+ ".m3u8")
                          (sub_m3u8_content i)) ;;
        ret (subtitleEntries ++ [subtitle_entry lang i])
  end.

(** Lines 63-186. *)
Definition createHLSForStreams (filePath fileName : string) (streams : Streams)
    : M string :=
  let outputPath := path_join outputDir fileName in
  emit (EvMkdir outputPath) ;;
  playlistEntries <-
    for_indexed (video_body filePath outputPath) 0 (video streams) [] ;;
  audioEntries <-
    for_indexed (audio_body filePath outputPath) 0 (audio streams) [] ;;
  subtitleEntries <-
    for_indexed (subtitle_body filePath outputPath) 0 (subtitle streams) [] ;;
  emit (EvWriteFile (outputPath +:+ "/master.m3u8")
                    (master_playlist audioEntries subtitleEntries playlistEntries)) ;;
  ret (fileName +:+ "/master.m3u8").

(** Lines 189-203: the handler of [POST /upload] on a request that carries
    a file, given [req.file.path] and [req.file.filename]. *)
Definition upload (file_path file_filename : string) : M unit :=
  let filePath := file_path in
  let fileName := path_parse_name file_filename in
  try_catch
    (streams <- analyzeStreams filePath ;;
     streamUrl <- createHLSForStreams filePath fileName streams ;;
     emit (EvJson "Video processed with all streams." ("/streams/" +:+ streamUrl)))
    (λ error,
       emit (EvConsoleError error) ;;
       emit (EvSend 500 "Error processing video.")).

End Server.

(** [req.file] as multer leaves it: the stored file, or [undefined] when
    the request has no [video] part. *)
Record UploadedFile := {
  upload_path : string;
  upload_filename : string;
}.

(** Lines 188-204: the handler of [POST /upload].  Lines 189-190 read
    [req.file.path] and [req.file.filename] before the [try]: on a request
    without a file the handler throws there, and nothing catches it. *)
Definition post_upload (ffprobe : list Event → string → option Metadata)
    (ffmpeg : list Event → Command → bool) (outputDir : string)
    (req_file : option UploadedFile) : M unit :=
  match req_file with
  | None => throw TypeError
  | Some file =>
      upload ffprobe ffmpeg outputDir (upload_path file) (upload_filename file)
  end.

(** ** Observations on traces *)

Fixpoint count_events (p : Event → bool) (tr : list Event) : nat :=
  match tr with
  | [] => 0
  | e :: rest => (if p e then 1 else 0) + count_events p rest
  end.

Definition is_probe (e : Event) : bool :=
  match e with EvProbe _ _ => true | _ => false end.

Definition is_mkdir (e : Event) : bool :=
  match e with EvMkdir _ => true | _ => false end.

(** The commands handed to ffmpeg, in the order they were run. *)
Fixpoint commands_of (tr : list Event) : list Command :=
  match tr with
  | [] => []
  | EvFfmpeg cmd _ :: rest => cmd :: commands_of rest
  | _ :: rest => commands_of rest
  end.

(** The contents written to [path], oldest first. *)
Fixpoint writes_to (path : string) (tr : list Event) : list string :=
  match tr with
  | [] => []
  | EvWriteFile p content :: rest =>
      if streq p path then content :: writes_to path rest else writes_to path rest
  | _ :: rest => writes_to path rest
  end.

(** The value that follows [key] among options added as key/value pairs. *)
Fixpoint option_value (key : string) (opts : list string) : option string :=
  match opts with
  | k :: v :: rest => if streq k key then Some v else option_value key rest
  | _ => None
  end.

(** ** The inventory and the log lines of [analyzeStreams], as pure functions *)

Fixpoint inventory_from (index : nat) (l : list Stream) (acc : Streams) : Streams :=
  match l with
  | [] => acc
  | stream :: rest => inventory_from (S index) rest (classify index stream acc)
  end.

Definition inventory (metadata : Metadata) : Streams :=
  inventory_from 0 (md_streams metadata) {| video := []; audio := []; subtitle := [] |}.

Fixpoint stream_logs_from (index : nat) (l : list Stream) : list Event :=
  match l with
  | [] => []
  | stream :: rest =>
      EvLog ("Stream " +:+ pretty index +:+ ": " +:+ codec_type stream
             +:+ " - " +:+ codec_name stream)
      :: stream_logs_from (S index) rest
  end.

Definition stream_logs (metadata : Metadata) : list Event :=
  stream_logs_from 0 (md_streams metadata).

(** The handler answered with the success response: the job completed. *)
Definition completed (tr : list Event) : bool :=
  match last tr with
  | Some (EvJson _ _) => true
  | _ => false
  end.

(** A call to the media engine that failed. *)
Definition is_failure (e : Event) : bool :=
  match e with
  | EvProbe _ false | EvFfmpeg _ false => true
  | _ => false
  end.

(** The event that raised [err]: a failed probe, a failed command, or the
    probe whose answer had no stream at the index that was read. *)
Definition cause (err : Error) (e : Event) : Prop :=
  match err, e with
  | ProbeError, EvProbe _ false => True
  | FfmpegError, EvFfmpeg _ false => True
  | TypeError, EvProbe _ true => True
  | _, _ => False
  end.

(** A computation stopped at its first failure: a value comes with a trace
    free of failures, an error with a trace whose last event is its cause. *)
Definition outcome {A} (r : Error + A) (tr : list Event) : Prop :=
  match r with
  | inr _ => count_events is_failure tr = 0
  | inl err =>
      ∃ pre f, tr = pre ++ [f] ∧ count_events is_failure pre = 0 ∧ cause err f
  end.

(** What iteration [i] of each loop may emit for stream [streamIndex]. *)
Definition video_event (filePath outputPath : string) (i streamIndex : nat)
    (e : Event) : Prop :=
  match e with
  | EvProbe p _ => p = filePath
  | EvFfmpeg cmd _ =>
      ∃ isH264, cmd = video_command filePath outputPath i streamIndex isH264
  | _ => False
  end.

Definition audio_event (filePath outputPath : string) (i streamIndex : nat)
    (e : Event) : Prop :=
  match e with
  | EvProbe p _ => p = filePath
  | EvFfmpeg cmd _ =>
      ∃ isAAC, cmd = audio_command filePath outputPath i streamIndex isAAC
  | _ => False
  end.

Definition subtitle_event (filePath outputPath : string) (i streamIndex : nat)
    (e : Event) : Prop :=
  match e with
  | EvProbe p _ => p = filePath
  | EvLog _ => True
  | EvFfmpeg cmd _ => cmd = subtitle_command filePath outputPath i streamIndex
  | EvWriteFile p content =>
      p = outputPath +:+ "/sub_" +:+ pretty i +:+ ".m3u8"
      ∧ content = sub_m3u8_content i
  | _ => False
  end.

(** An event of one of the three loops over the inventory [streams]. *)
Definition job_event (filePath outputPath : string) (streams : Streams)
    (e : Event) : Prop :=
  ∃ i streamIndex,
    (video streams !! i = Some streamIndex
     ∧ video_event filePath outputPath i streamIndex e)
    ∨ (audio streams !! i = Some streamIndex
       ∧ audio_event filePath outputPath i streamIndex e)
    ∨ (subtitle streams !! i = Some streamIndex
       ∧ subtitle_event filePath outputPath i streamIndex e).

(** A segmented generation of stream [streamIndex] as the [i]-th stream of
    type [ty]: segments of 10 seconds, every segment listed, files named
    after the type and [i]. *)
Definition hls_generation (filePath outputPath ty : string) (i streamIndex : nat)
    (cmd : Command) : Prop :=
  cmd_input cmd = filePath
  ∧ option_value "-map" (cmd_options cmd) = Some ("0:" +:+ pretty streamIndex)
  ∧ option_value "-f" (cmd_options cmd) = Some "hls"
  ∧ option_value "-hls_time" (cmd_options cmd) = Some "10"
  ∧ option_value "-hls_list_size" (cmd_options cmd) = Some "0"
  ∧ option_value "-hls_segment_filename" (cmd_options cmd)
    = Some (outputPath +:+ "/" +:+ ty +:+ "_" +:+ pretty i +:+ "_%03d.ts")
  ∧ cmd_output cmd = outputPath +:+ "/" +:+ ty +:+ "_" +:+ pretty i +:+ ".m3u8".

(** The extraction of subtitle stream [streamIndex], the [i]-th of its
    type, into one WebVTT track. *)
Definition subtitle_extraction (filePath outputPath : string) (i streamIndex : nat)
    (cmd : Command) : Prop :=
  cmd_input cmd = filePath
  ∧ option_value "-map" (cmd_options cmd) = Some ("0:" +:+ pretty streamIndex)
  ∧ option_value "-f" (cmd_options cmd) = Some "webvtt"
  ∧ cmd_output cmd = outputPath +:+ "/sub_" +:+ pretty i +:+ ".vtt".

(** ** The master playlist a container should give

    The entries a job writes when every probe reports [metadata]. *)

(** The elements of [l] with their positions, counted from [i]. *)
Fixpoint enumerate_from {A} (i : nat) (l : list A) : list (nat * A) :=
  match l with
  | [] => []
  | x :: rest => (i, x) :: enumerate_from (S i) rest
  end.

(** The subtitle stream at position [p.1], container index [p.2], is not
    skipped. *)
Definition accepted (metadata : Metadata) (p : nat * nat) : bool :=
  match md_streams metadata !! p.2 with
  | Some info => negb (unsupported_subtitle info)
  | None => false
  end.

Definition expected_audio (metadata : Metadata) (audio : list nat) : list string :=
  map (λ p, audio_entry (language_of (md_streams metadata !! p.2)) p.1)
      (enumerate_from 0 audio).

Definition expected_subtitle (metadata : Metadata) (subtitle : list nat) : list string :=
  map (λ p, subtitle_entry (language_of (md_streams metadata !! p.2)) p.1)
      (List.filter (accepted metadata) (enumerate_from 0 subtitle)).

Definition expected_video (video : list nat) : list string :=
  map (λ p, video_entry p.1) (enumerate_from 0 video).

(** Every probe of [filePath] reports [metadata]. *)
Definition steady (ffprobe : list Event → string → option Metadata)
    (filePath : string) (metadata : Metadata) : Prop :=
  ∀ h, ffprobe h filePath = Some metadata.

(** The last character of a text. *)
Fixpoint last_char (s : string) : option ascii :=
  match s with
  | EmptyString => None
  | String c EmptyString => Some c
  | String _ rest => last_char rest
  end.

(** Every entry opens with a tag of the [#EXT-X-] family and closes with a
    quote or with the [8] of [.m3u8]. *)
Definition well_delimited (line : string) : Prop :=
  (∃ tail, line = "#EXT-X-" +:+ tail)
  ∧ ∃ c, last_char line = Some c ∧ c ≠ ascii_of_nat 10.

(** The entries of a job over the inventory [streams]: for every audio
    stream, in order, one audio entry carrying its position; for every
    subtitle stream, in order, nothing or one subtitle entry carrying its
    position; for every video stream, in order, the video entry of its
    position. *)
Definition entries_of_job (streams : Streams)
    (audioEntries subtitleEntries playlistEntries : list string) : Prop :=
  (∃ outs,
     audioEntries = concat outs
     ∧ Forall2 (λ (p : nat * nat) out, ∃ lang, out = [audio_entry lang p.1])
               (enumerate_from 0 (audio streams)) outs)
  ∧ (∃ outs,
       subtitleEntries = concat outs
       ∧ Forall2 (λ (p : nat * nat) out,
                    out = [] ∨ ∃ lang, out = [subtitle_entry lang p.1])
                 (enumerate_from 0 (subtitle streams)) outs)
  ∧ playlistEntries = map (λ p, video_entry p.1) (enumerate_from 0 (video streams)).

(** [cmd] carries the option [key] with the value [value]. *)
Definition has_option (key value : string) (cmd : Command) : bool :=
  match option_value key (cmd_options cmd) with
  | Some v => streq v value
  | None => false
  end.

(** How many of [cmds] carry [key value]. *)
Definition count_option (key value : string) (cmds : list Command) : nat :=
  length (List.filter (has_option key value) cmds).

(** Every ffmpeg command ends without error. *)
Definition always_ends (ffmpeg : list Event → Command → bool) : Prop :=
  ∀ h cmd, ffmpeg h cmd = true.

(** ** Job identifiers *)

(** One request to [POST /upload]: what [Date.now()] returned when multer
    named the file, and the name the client gave. *)
Record Submission := {
  clock : N;
  originalname : string;
}.

(** Lines 20 and 190: [path.parse(req.file.filename).name], the name of the
    job and of its output directory. *)
Definition job_name (s : Submission) : string :=
  path_parse_name (storage_filename (clock s) (originalname s)).

Fixpoint all_chars (p : ascii → bool) (s : string) : bool :=
  match s with
  | EmptyString => true
  | String c rest => p c && all_chars p rest
  end.

Definition is_digit (c : ascii) : bool :=
  Nat.leb 48 (nat_of_ascii c) && Nat.leb (nat_of_ascii c) 57.

(** The client's file name holds no path separator (busboy hands multer
    the base name of what the client sent). *)
Definition no_slash (s : string) : bool :=
  all_chars (λ c, negb (Ascii.eqb c "/")) s.

(** ** The decision taken for one stream, read off one loop iteration *)

Inductive StreamType := Video | Audio | Subtitle.

Definition type_name (ty : StreamType) : string :=
  match ty with
  | Video => "video"
  | Audio => "audio"
  | Subtitle => "subtitle"
  end.

Inductive Decision :=
| Passthrough
| Transcode (target : string)
| Skip.

(** No command at all is a skip; a command whose [key] option is [copy] is
    a passthrough; any other value names the target of a transcode. *)
Definition decision_of (key : string) (tr : list Event) : Decision :=
  match commands_of tr with
  | [] => Skip
  | cmd :: _ =>
      match option_value key (cmd_options cmd) with
      | Some value => if streq value "copy" then Passthrough else Transcode value
      | None => Skip
      end
  end.

(** The decision observed when the loop of type [ty] handles the stream at
    container index [streamIndex] as its [i]-th stream. *)
Definition decide_stream (ffprobe : list Event → string → option Metadata)
    (ffmpeg : list Event → Command → bool) (filePath outputPath : string)
    (ty : StreamType) (i streamIndex : nat) (h : list Event) : Decision :=
  match ty with
  | Video =>
      decision_of "-c:v"
        (video_body ffprobe ffmpeg filePath outputPath i streamIndex [] h).2
  | Audio =>
      decision_of "-c:a"
        (audio_body ffprobe ffmpeg filePath outputPath i streamIndex [] h).2
  | Subtitle =>
      decision_of "-f"
        (subtitle_body ffprobe ffmpeg filePath outputPath i streamIndex [] h).2
  end.

(** How often [needle] occurs in [text]. *)
Fixpoint occurrences (needle text : string) : nat :=
  match text with
  | EmptyString => 0
  | String _ rest =>
      (if String.prefix needle text then 1 else 0) + occurrences needle rest
  end.

(** ** More observations *)

(** The handler answered the request. *)
Definition is_response (e : Event) : bool :=
  match e with
  | EvJson _ _ | EvSend _ _ => true
  | _ => false
  end.

(** A command was handed to ffmpeg. *)
Definition is_command (e : Event) : bool :=
  match e with
  | EvFfmpeg _ _ => true
  | _ => false
  end.

(** What an event of a job may touch: the job directory [outputPath], files
    below it, and the uploaded file as the only input. *)
Definition within_job (filePath outputPath : string) (e : Event) : Prop :=
  match e with
  | EvMkdir path => path = outputPath
  | EvWriteFile path _ => String.prefix (outputPath +:+ "/") path = true
  | EvFfmpeg cmd _ =>
      cmd_input cmd = filePath
      ∧ String.prefix (outputPath +:+ "/") (cmd_output cmd) = true
      ∧ ∀ pattern,
          option_value "-hls_segment_filename" (cmd_options cmd) = Some pattern →
          String.prefix (outputPath +:+ "/") pattern = true
  | EvProbe path _ => path = filePath
  | _ => True
  end.

(** The container indices of the streams of type [ty], in container order. *)
Definition indices_of_type (ty : string) (l : list Stream) : list nat :=
  map fst (List.filter (λ p, streq (codec_type p.2) ty) (enumerate_from 0 l)).

(** The commands a job runs when every probe reports [metadata] and no
    command fails: the video streams first, then the audio streams, then
    the subtitle streams that are not skipped. *)
Definition expected_commands (filePath outputPath : string) (metadata : Metadata)
    (streams : Streams) : list Command :=
  concat (map (λ p, match md_streams metadata !! p.2 with
                    | Some info =>
                        [video_command filePath outputPath p.1 p.2 (isH264_of info)]
                    | None => []
                    end)
              (enumerate_from 0 (video streams)))
  ++ map (λ p, audio_command filePath outputPath p.1 p.2 (isAAC_of metadata p.2))
         (enumerate_from 0 (audio streams))
  ++ map (λ p, subtitle_command filePath outputPath p.1 p.2)
         (List.filter (accepted metadata) (enumerate_from 0 (subtitle streams))).

(** ** The listing of processed videos, [GET /videos] *)

(** An entry of [readdir(outputDir, { withFileTypes: true })]. *)
Record Dirent := {
  dirent_name : string;
  dirent_isDirectory : bool;
}.

(** An element of the array the route answers with. *)
Record ListedVideo := {
  video_name : string;
  video_url : string;
}.

(** What the route answers: [res.json(videos)], or, after
    [console.error(err)], [res.status(500).send(...)]. *)
Inductive Listing :=
| Listed (videos : list ListedVideo)
| ListingFailed (status : nat) (body : string).

(** Lines 228-235, the loop over the directory entries; [videos] is the
    array being filled. *)
Fixpoint collect_videos (outputDir : string) (existsSync : string → bool)
    (dirs : list Dirent) (videos : list ListedVideo) : list ListedVideo :=
  match dirs with
  | [] => videos
  | dirent :: rest =>
      collect_videos outputDir existsSync rest
        (if dirent_isDirectory dirent
         then
           let mp := path_join (path_join outputDir (dirent_name dirent)) "master.m3u8" in
           if existsSync mp
           then videos ++ [ {| video_name := dirent_name dirent;
                               video_url := "/streams/" +:+ dirent_name dirent
                                            +:+ "/master.m3u8" |} ]
           else videos
         else videos)
  end.

(** Lines 224-241; [readdir] answers with the entries or fails. *)
Definition videos (outputDir : string) (readdir : string → option (list Dirent))
    (existsSync : string → bool) : Listing :=
  match readdir outputDir with
  | Some dirs => Listed (collect_videos outputDir existsSync dirs [])
  | None => ListingFailed 500 "Error listing videos"
  end.

(** The entry of a directory that holds a master playlist. *)
Definition has_master (outputDir : string) (existsSync : string → bool)
    (dirent : Dirent) : bool :=
  dirent_isDirectory dirent
  && existsSync (outputDir +:+ "/" +:+ dirent_name dirent +:+ "/master.m3u8").

Definition video_of (dirent : Dirent) : ListedVideo :=
  {| video_name := dirent_name dirent;
     video_url := "/streams/" +:+ dirent_name dirent +:+ "/master.m3u8" |}.

(** A file was written. *)
Definition is_write (e : Event) : bool :=
  match e with
  | EvWriteFile _ _ => true
  | _ => false
  end.

(** A subtitle track was extracted without error. *)
Definition is_extracted (e : Event) : bool :=
  match e with
  | EvFfmpeg cmd true => has_option "-f" "webvtt" cmd
  | _ => false
  end.

(** ** Reading an attribute of a playlist entry *)

Fixpoint drop_chars (n : nat) (s : string) : string :=
  match n, s with
  | S m, String _ rest => drop_chars m rest
  | _, _ => s
  end.

(** What follows the first occurrence of [needle] in [s]. *)
Fixpoint text_after (needle s : string) : option string :=
  match s with
  | EmptyString => None
  | String _ rest =>
      if String.prefix needle s
      then Some (drop_chars (String.length needle) s)
      else text_after needle rest
  end.

(** [s] up to its first double quote. *)
Fixpoint until_quote (s : string) : string :=
  match s with
  | EmptyString => EmptyString
  | String c rest =>
      if Ascii.eqb c (ascii_of_nat 34) then EmptyString else String c (until_quote rest)
  end.

(** The quoted value of the first attribute [name] of an entry. *)
Definition quoted_attribute (name line : string) : option string :=
  match text_after (name +:+ "=" +:+ dq) line with
  | Some rest => Some (until_quote rest)
  | None => None
  end.

(** A file system on which everything a trace wrote exists. *)
Definition keeps_writes (existsSync : string → bool) (tr : list Event) : Prop :=
  ∀ path content, In (EvWriteFile path content) tr → existsSync path = true.

(** ** Sample containers and engines *)

Definition sample_stream (ty codec : string) (lang : option string) : Stream :=
  {| codec_type := ty; codec_name := codec;
     tags := match lang with
             | Some l => Some {[ "language" := l ]}
             | None => None
             end |}.

(** One H.264 video stream and nothing else. *)
Definition one_video : Metadata :=
  {| md_streams := [sample_stream "video" "h264" None] |}.

(** An H.264 video stream, an AAC and an AC-3 audio stream, and an ASS
    subtitle stream. *)
Definition mixed_container : Metadata :=
  {| md_streams :=
       [ sample_stream "video" "h264" None;
         sample_stream "audio" "aac" (Some "eng");
         sample_stream "audio" "ac3" (Some "fra");
         sample_stream "subtitle" "ass" (Some "eng") ] |}.

(** An H.264 video stream, a SubRip subtitle stream and an ASS subtitle
    stream. *)
Definition srt_then_ass : Metadata :=
  {| md_streams :=
       [ sample_stream "video" "h264" None;
         sample_stream "subtitle" "subrip" (Some "eng");
         sample_stream "subtitle" "ass" (Some "eng") ] |}.

(** An ffmpeg that fails on every command that re-encodes audio. *)
Definition ffmpeg_without_aac_encoder : list Event → Command → bool :=
  λ _ cmd,
    match option_value "-c:a" (cmd_options cmd) with
    | Some codec => negb (streq codec "aac")
    | None => true
    end.

(** A file system that holds every path, and an output directory with one
    job directory and one stray file. *)
Definition every_path_exists : string → bool := λ _, true.
Definition one_job_listing : string → option (list Dirent) :=
  λ _, Some [ {| dirent_name := "17-movie"; dirent_isDirectory := true |};
              {| dirent_name := "notes.txt"; dirent_isDirectory := false |} ].

(** An engine that always reports [metadata] and never fails. *)
Definition steady_probe (metadata : Metadata) : list Event → string → option Metadata :=
  λ _ _, Some metadata.
Definition ffmpeg_ok : list Event → Command → bool := λ _ _, true.

(** ** Laws of the effect monad *)

Lemma bind_run {A B} (m : M A) (f : A → M B) (h : list Event) :
  bind m f h =
    match m h with
    | (inl e, t1) => (inl e, t1)
    | (inr a, t1) => ((f a (h ++ t1)).1, t1 ++ (f a (h ++ t1)).2)
    end.
Proof.
  unfold bind. destruct (m h) as [[e|a] t1]; [reflexivity|].
  now destruct (f a (h ++ t1)).
Qed.

Lemma bind_inr {A B} (m : M A) (f : A → M B) h b tr :
  bind m f h = (inr b, tr) →
  ∃ a t1 t2, m h = (inr a, t1) ∧ f a (h ++ t1) = (inr b, t2) ∧ tr = t1 ++ t2.
Proof.
  unfold bind. destruct (m h) as [[e|a] t1]; [discriminate|].
  destruct (f a (h ++ t1)) as [r t2] eqn:Hf. intros [= -> <-].
  exists a, t1, t2. auto.
Qed.

Lemma bind_inl {A B} (m : M A) (f : A → M B) h e tr :
  bind m f h = (inl e, tr) →
  m h = (inl e, tr) ∨
  ∃ a t1 t2, m h = (inr a, t1) ∧ f a (h ++ t1) = (inl e, t2) ∧ tr = t1 ++ t2.
Proof.
  unfold bind. destruct (m h) as [[e'|a] t1]; [intros [= -> ->]; now left|].
  destruct (f a (h ++ t1)) as [r t2] eqn:Hf. intros [= -> <-]. right.
  exists a, t1, t2. auto.
Qed.

Lemma count_events_app p t1 t2 :
  count_events p (t1 ++ t2) = count_events p t1 + count_events p t2.
Proof. induction t1 as [|e t1 IH]; simpl; [reflexivity|]. rewrite IH. lia. Qed.

Lemma commands_of_app t1 t2 :
  commands_of (t1 ++ t2) = commands_of t1 ++ commands_of t2.
Proof.
  induction t1 as [|e t1 IH]; simpl; [reflexivity|].
  destruct e; simpl; now rewrite ?IH.
Qed.

Lemma writes_to_app path t1 t2 :
  writes_to path (t1 ++ t2) = writes_to path t1 ++ writes_to path t2.
Proof.
  induction t1 as [|e t1 IH]; simpl; [reflexivity|].
  destruct e; simpl; rewrite ?IH; try reflexivity.
  now destruct (streq path0 path).
Qed.

Section ServerFacts.

Variable ffprobe : list Event → string → option Metadata.
Variable ffmpeg : list Event → Command → bool.
Variable outputDir : string.

(** The [forEach] of [analyzeStreams] never fails; it logs one line per
    stream and builds the inventory. *)
Lemma analyze_loop_run l : ∀ index acc h,
  for_indexed
    (λ index stream streams,
       emit (EvLog ("Stream " +:+ pretty index +:+ ": " +:+ codec_type stream
                    +:+ " - " +:+ codec_name stream)) ;;
       ret (classify index stream streams))
    index l acc h
  = (inr (inventory_from index l acc), stream_logs_from index l).
Proof.
  induction l as [|s l IH]; intros index acc h; simpl; [reflexivity|].
  rewrite bind_run. simpl. now rewrite IH.
Qed.

Lemma analyzeStreams_run filePath h :
  analyzeStreams ffprobe filePath h =
    match ffprobe h filePath with
    | Some metadata =>
        (inr (inventory metadata), EvProbe filePath true :: stream_logs metadata)
    | None => (inl ProbeError, [EvProbe filePath false])
    end.
Proof.
  unfold analyzeStreams. rewrite bind_run. unfold probe.
  destruct (ffprobe h filePath) as [md|]; [|reflexivity].
  now rewrite analyze_loop_run.
Qed.

(** [createHLSForStreams] unfolded into its three loops. *)
Lemma createHLS_run filePath fileName streams h :
  let outputPath := path_join outputDir fileName in
  let h0 := h ++ [EvMkdir outputPath] in
  createHLSForStreams ffprobe ffmpeg outputDir filePath fileName streams h =
    match for_indexed (video_body ffprobe ffmpeg filePath outputPath)
                      0 (video streams) [] h0 with
    | (inl e, t1) => (inl e, EvMkdir outputPath :: t1)
    | (inr playlistEntries, t1) =>
      match for_indexed (audio_body ffprobe ffmpeg filePath outputPath)
                        0 (audio streams) [] (h0 ++ t1) with
      | (inl e, t2) => (inl e, EvMkdir outputPath :: t1 ++ t2)
      | (inr audioEntries, t2) =>
        match for_indexed (subtitle_body ffprobe ffmpeg filePath outputPath)
                          0 (subtitle streams) [] ((h0 ++ t1) ++ t2) with
        | (inl e, t3) => (inl e, EvMkdir outputPath :: t1 ++ t2 ++ t3)
        | (inr subtitleEntries, t3) =>
            (inr (fileName +:+ "/master.m3u8"),
             EvMkdir outputPath :: t1 ++ t2 ++ t3 ++
             [EvWriteFile (outputPath +:+ "/master.m3u8")
                (master_playlist audioEntries subtitleEntries playlistEntries)])
        end
      end
    end.
Proof.
  intros outputPath h0. unfold createHLSForStreams.
  fold outputPath. rewrite bind_run. simpl. fold h0.
  rewrite bind_run.
  destruct (for_indexed (video_body _ _ _ _) 0 (video streams) [] h0)
    as [[e|pl] t1]; [reflexivity|].
  rewrite bind_run.
  destruct (for_indexed (audio_body _ _ _ _) 0 (audio streams) [] (h0 ++ t1))
    as [[e|au] t2]; [reflexivity|].
  rewrite bind_run.
  destruct (for_indexed (subtitle_body _ _ _ _) 0 (subtitle streams) []
              ((h0 ++ t1) ++ t2)) as [[e|su] t3]; [reflexivity|].
  rewrite bind_run. simpl. reflexivity.
Qed.

(** The handler unfolded: analysis, then the job, then the response. *)
Lemma upload_run file_path file_filename h :
  upload ffprobe ffmpeg outputDir file_path file_filename h =
    match ffprobe h file_path with
    | None =>
        (inr tt, [EvProbe file_path false; EvConsoleError ProbeError;
                  EvSend 500 "Error processing video."])
    | Some metadata =>
        let analysis := EvProbe file_path true :: stream_logs metadata in
        match createHLSForStreams ffprobe ffmpeg outputDir file_path
                (path_parse_name file_filename) (inventory metadata)
                (h ++ analysis) with
        | (inr streamUrl, t) =>
            (inr tt, analysis ++ t ++
               [EvJson "Video processed with all streams." ("/streams/" +:+ streamUrl)])
        | (inl e, t) =>
            (inr tt, analysis ++ t ++
               [EvConsoleError e; EvSend 500 "Error processing video."])
        end
    end.
Proof.
  unfold upload, try_catch. rewrite bind_run, analyzeStreams_run.
  destruct (ffprobe h file_path) as [md|]; [|reflexivity].
  cbv zeta. rewrite bind_run.
  destruct (createHLSForStreams _ _ _ _ _ _ _) as [[e|url] t]; simpl.
  - now rewrite <- app_assoc.
  - reflexivity.
Qed.

(** *** Loops *)

Lemma for_indexed_nil {A St} (body : nat → A → St → M St) i s h :
  for_indexed body i [] s h = (inr s, []).
Proof. reflexivity. Qed.

Lemma for_indexed_cons {A St} (body : nat → A → St → M St) i x xs s h :
  for_indexed body i (x :: xs) s h =
    match body i x s h with
    | (inl e, t1) => (inl e, t1)
    | (inr s', t1) =>
        ((for_indexed body (S i) xs s' (h ++ t1)).1,
         t1 ++ (for_indexed body (S i) xs s' (h ++ t1)).2)
    end.
Proof. simpl. now rewrite bind_run. Qed.

(** A loop that completes emitted [k] events of kind [p] per iteration
    when each completed iteration emits [k]. *)
Lemma for_indexed_count {A St} (body : nat → A → St → M St) p k :
  (∀ i x s h s' tr, body i x s h = (inr s', tr) → count_events p tr = k) →
  ∀ xs i s h s' tr,
    for_indexed body i xs s h = (inr s', tr) →
    count_events p tr = k * length xs.
Proof.
  intros Hbody. induction xs as [|x xs IH]; intros i s h s' tr.
  - rewrite for_indexed_nil. intros [= <- <-]. simpl. lia.
  - rewrite for_indexed_cons.
    destruct (body i x s h) as [[e|s1] t1] eqn:Hb; [discriminate|].
    destruct (for_indexed body (S i) xs s1 (h ++ t1)) as [r t2] eqn:Hl.
    simpl. intros [= -> <-].
    rewrite count_events_app, (Hbody _ _ _ _ _ _ Hb), (IH _ _ _ _ _ Hl).
    simpl. lia.
Qed.

(** Every event of a loop comes from one iteration [i0 + k] on [xs !! k]. *)
Lemma for_indexed_forall {A St} (body : nat → A → St → M St)
    (Q : nat → A → Event → Prop) :
  (∀ i x s h, Forall (Q i x) (body i x s h).2) →
  ∀ xs i0 s h,
    Forall (λ e, ∃ k x, xs !! k = Some x ∧ Q (i0 + k) x e)
           (for_indexed body i0 xs s h).2.
Proof.
  intros Hbody. induction xs as [|x xs IH]; intros i0 s h.
  - constructor.
  - rewrite for_indexed_cons. specialize (Hbody i0 x s h).
    destruct (body i0 x s h) as [[e|s1] t1]; simpl in *.
    + eapply Forall_impl; [exact Hbody|]. intros ev Hev.
      exists 0, x. split; [reflexivity|]. now rewrite Nat.add_0_r.
    + apply Forall_app. split.
      * eapply Forall_impl; [exact Hbody|]. intros ev Hev.
        exists 0, x. split; [reflexivity|]. now rewrite Nat.add_0_r.
      * eapply Forall_impl; [apply IH|]. intros ev (k & y & Hk & Hev).
        exists (S k), y. split; [exact Hk|].
        now replace (i0 + S k) with (S i0 + k) by lia.
Qed.

(** *** Probes per iteration *)

Lemma video_body_probes filePath outputPath i streamIndex s h s' tr :
  video_body ffprobe ffmpeg filePath outputPath i streamIndex s h = (inr s', tr) →
  count_events is_probe tr = 1.
Proof.
  unfold video_body, streamInfo_at, bind, probe, run, ret, throw.
  intros H. repeat case_match; simplify_eq; reflexivity.
Qed.

Lemma audio_body_probes filePath outputPath i streamIndex s h s' tr :
  audio_body ffprobe ffmpeg filePath outputPath i streamIndex s h = (inr s', tr) →
  count_events is_probe tr = 2.
Proof.
  unfold audio_body, isAudioStreamAAC, streamInfo_at, bind, probe, run, ret, throw.
  intros H. repeat case_match; simplify_eq; reflexivity.
Qed.

Lemma subtitle_body_probes filePath outputPath i streamIndex s h s' tr :
  subtitle_body ffprobe ffmpeg filePath outputPath i streamIndex s h = (inr s', tr) →
  count_events is_probe tr = 1.
Proof.
  unfold subtitle_body, streamInfo_at, bind, probe, run, ret, throw, emit.
  intros H. repeat case_match; simplify_eq; reflexivity.
Qed.

Lemma createHLS_probes filePath fileName streams h url tr :
  createHLSForStreams ffprobe ffmpeg outputDir filePath fileName streams h
    = (inr url, tr) →
  count_events is_probe tr
    = length (video streams) + 2 * length (audio streams) + length (subtitle streams).
Proof.
  rewrite createHLS_run. cbv zeta.
  destruct (for_indexed (video_body _ _ _ _) _ _ _ _) as [[e|pl] t1] eqn:Hv;
    [discriminate|].
  destruct (for_indexed (audio_body _ _ _ _) _ _ _ _) as [[e|au] t2] eqn:Ha;
    [discriminate|].
  destruct (for_indexed (subtitle_body _ _ _ _) _ _ _ _) as [[e|su] t3] eqn:Hs;
    [discriminate|].
  intros [= _ <-].
  apply (for_indexed_count _ is_probe 1) in Hv; [|apply video_body_probes].
  apply (for_indexed_count _ is_probe 2) in Ha; [|apply audio_body_probes].
  apply (for_indexed_count _ is_probe 1) in Hs; [|apply subtitle_body_probes].
  simpl. rewrite !count_events_app, Hv, Ha, Hs. simpl. lia.
Qed.

(** *** Stopping at the first failure *)

Lemma outcome_bind {A B} (m : M A) (f : A → M B) h :
  outcome (m h).1 (m h).2 →
  (∀ a t1, m h = (inr a, t1) → outcome (f a (h ++ t1)).1 (f a (h ++ t1)).2) →
  outcome (bind m f h).1 (bind m f h).2.
Proof.
  rewrite bind_run. destruct (m h) as [[e|a] t1]; simpl; [tauto|].
  intros Hm Hf. specialize (Hf a t1 eq_refl).
  destruct (f a (h ++ t1)) as [[e|b] t2]; simpl in *.
  - destruct Hf as (pre & ev & -> & Hpre & Hc).
    exists (t1 ++ pre), ev. rewrite app_assoc, count_events_app. auto with lia.
  - rewrite count_events_app. lia.
Qed.

Lemma for_indexed_outcome {A St} (body : nat → A → St → M St) :
  (∀ i x s h, outcome (body i x s h).1 (body i x s h).2) →
  ∀ xs i s h,
    outcome (for_indexed body i xs s h).1 (for_indexed body i xs s h).2.
Proof.
  intros Hbody. induction xs as [|x xs IH]; intros i s h; [reflexivity|].
  cbn [for_indexed]. apply outcome_bind; [apply Hbody|]. intros; apply IH.
Qed.

Lemma video_body_outcome filePath outputPath i streamIndex s h :
  outcome (video_body ffprobe ffmpeg filePath outputPath i streamIndex s h).1
          (video_body ffprobe ffmpeg filePath outputPath i streamIndex s h).2.
Proof.
  unfold video_body, streamInfo_at, bind, probe, run, ret, throw.
  repeat case_match; simplify_eq; simpl; try reflexivity;
    try (eexists [], _; simpl; split; [reflexivity|split; [reflexivity|exact I]]);
    try (eexists [_], _; simpl; split; [reflexivity|split; [reflexivity|exact I]]).
Qed.

Lemma audio_body_outcome filePath outputPath i streamIndex s h :
  outcome (audio_body ffprobe ffmpeg filePath outputPath i streamIndex s h).1
          (audio_body ffprobe ffmpeg filePath outputPath i streamIndex s h).2.
Proof.
  unfold audio_body, isAudioStreamAAC, streamInfo_at, bind, probe, run, ret, throw.
  repeat case_match; simplify_eq; simpl; try reflexivity;
    try (eexists [], _; simpl; split; [reflexivity|split; [reflexivity|exact I]]);
    try (eexists [_], _; simpl; split; [reflexivity|split; [reflexivity|exact I]]);
    try (eexists [_; _], _; simpl; split; [reflexivity|split; [reflexivity|exact I]]).
Qed.

Lemma subtitle_body_outcome filePath outputPath i streamIndex s h :
  outcome (subtitle_body ffprobe ffmpeg filePath outputPath i streamIndex s h).1
          (subtitle_body ffprobe ffmpeg filePath outputPath i streamIndex s h).2.
Proof.
  unfold subtitle_body, streamInfo_at, bind, probe, run, ret, throw, emit.
  repeat case_match; simplify_eq; simpl; try reflexivity;
    try (eexists [], _; simpl; split; [reflexivity|split; [reflexivity|exact I]]);
    try (eexists [_], _; simpl; split; [reflexivity|split; [reflexivity|exact I]]).
Qed.

Lemma createHLS_outcome filePath fileName streams h :
  outcome (createHLSForStreams ffprobe ffmpeg outputDir filePath fileName streams h).1
          (createHLSForStreams ffprobe ffmpeg outputDir filePath fileName streams h).2.
Proof.
  unfold createHLSForStreams.
  apply outcome_bind; [reflexivity|]. intros _ ? _.
  apply outcome_bind; [apply for_indexed_outcome, video_body_outcome|]. intros ? ? _.
  apply outcome_bind; [apply for_indexed_outcome, audio_body_outcome|]. intros ? ? _.
  apply outcome_bind; [apply for_indexed_outcome, subtitle_body_outcome|]. intros ? ? _.
  apply outcome_bind; [reflexivity|]. intros; reflexivity.
Qed.

(** *** The events of a job *)

Lemma video_body_events filePath outputPath i streamIndex s h :
  Forall (video_event filePath outputPath i streamIndex)
    (video_body ffprobe ffmpeg filePath outputPath i streamIndex s h).2.
Proof.
  unfold video_body, streamInfo_at, bind, probe, run, ret, throw.
  repeat case_match; simplify_eq; simpl; repeat constructor; simpl; eauto.
Qed.

Lemma audio_body_events filePath outputPath i streamIndex s h :
  Forall (audio_event filePath outputPath i streamIndex)
    (audio_body ffprobe ffmpeg filePath outputPath i streamIndex s h).2.
Proof.
  unfold audio_body, isAudioStreamAAC, streamInfo_at, bind, probe, run, ret, throw.
  repeat case_match; simplify_eq; simpl; repeat constructor; simpl; eauto.
Qed.

Lemma subtitle_body_events filePath outputPath i streamIndex s h :
  Forall (subtitle_event filePath outputPath i streamIndex)
    (subtitle_body ffprobe ffmpeg filePath outputPath i streamIndex s h).2.
Proof.
  unfold subtitle_body, streamInfo_at, bind, probe, run, ret, throw, emit.
  repeat case_match; simplify_eq; simpl; repeat constructor; simpl; eauto.
Qed.

(** A job creates its directory, runs the three loops and, when they all
    completed, writes the master playlist. *)
Lemma createHLS_events filePath fileName streams h :
  let outputPath := path_join outputDir fileName in
  ∃ t, Forall (job_event filePath outputPath streams) t ∧
    match (createHLSForStreams ffprobe ffmpeg outputDir filePath fileName streams h).1 with
    | inl _ =>
        (createHLSForStreams ffprobe ffmpeg outputDir filePath fileName streams h).2
        = EvMkdir outputPath :: t
    | inr _ =>
        ∃ content,
          (createHLSForStreams ffprobe ffmpeg outputDir filePath fileName streams h).2
          = EvMkdir outputPath :: t ++ [EvWriteFile (outputPath +:+ "/master.m3u8") content]
    end.
Proof.
  intros outputPath. rewrite createHLS_run. cbv zeta. fold outputPath.
  set (h0 := h ++ [EvMkdir outputPath]).
  pose proof (for_indexed_forall _ _ (video_body_events filePath outputPath)
                (video streams) 0 [] h0) as Hv.
  destruct (for_indexed (video_body _ _ _ _) _ _ _ _) as [[e|pl] t1].
  { exists t1. split; [|reflexivity]. eapply Forall_impl; [exact Hv|].
    intros ev (k & x & Hk & Hev). exists k, x. auto. }
  pose proof (for_indexed_forall _ _ (audio_body_events filePath outputPath)
                (audio streams) 0 [] (h0 ++ t1)) as Ha.
  assert (Forall (job_event filePath outputPath streams) t1) as Hv'.
  { eapply Forall_impl; [exact Hv|].
    intros ev (k & x & Hk & Hev). exists k, x. auto. }
  destruct (for_indexed (audio_body _ _ _ _) _ _ _ _) as [[e|au] t2].
  { exists (t1 ++ t2). split; [|reflexivity]. apply Forall_app. split; [exact Hv'|].
    eapply Forall_impl; [exact Ha|].
    intros ev (k & x & Hk & Hev). exists k, x. auto. }
  assert (Forall (job_event filePath outputPath streams) t2) as Ha'.
  { eapply Forall_impl; [exact Ha|].
    intros ev (k & x & Hk & Hev). exists k, x. auto. }
  pose proof (for_indexed_forall _ _ (subtitle_body_events filePath outputPath)
                (subtitle streams) 0 [] ((h0 ++ t1) ++ t2)) as Hs.
  assert (Forall (job_event filePath outputPath streams)
            (for_indexed (subtitle_body ffprobe ffmpeg filePath outputPath) 0
               (subtitle streams) [] ((h0 ++ t1) ++ t2)).2) as Hs'.
  { eapply Forall_impl; [exact Hs|].
    intros ev (k & x & Hk & Hev). exists k, x. auto. }
  destruct (for_indexed (subtitle_body _ _ _ _) _ _ _ _) as [[e|su] t3]; simpl in *.
  { exists (t1 ++ t2 ++ t3). split; [|reflexivity].
    rewrite !Forall_app. auto. }
  exists (t1 ++ t2 ++ t3). split; [rewrite !Forall_app; auto|].
  eexists. now rewrite <- !app_assoc.
Qed.

Lemma upload_events file_path file_filename h metadata :
  ffprobe h file_path = Some metadata →
  let outputPath := path_join outputDir (path_parse_name file_filename) in
  ∃ t final,
    (upload ffprobe ffmpeg outputDir file_path file_filename h).2
    = (EvProbe file_path true :: stream_logs metadata)
      ++ EvMkdir outputPath :: t ++ final
    ∧ Forall (job_event file_path outputPath (inventory metadata)) t
    ∧ ((∃ e, final = [EvConsoleError e; EvSend 500 "Error processing video."])
       ∨ (∃ content url,
            final = [EvWriteFile (outputPath +:+ "/master.m3u8") content;
                     EvJson "Video processed with all streams." url])).
Proof.
  intros Hp outputPath. rewrite upload_run, Hp. cbv zeta.
  destruct (createHLS_events file_path (path_parse_name file_filename)
              (inventory metadata)
              (h ++ EvProbe file_path true :: stream_logs metadata))
    as (t & Ht & Hshape).
  fold outputPath in Ht, Hshape.
  destruct (createHLSForStreams _ _ _ _ _ _ _) as [[e|url] tr]; simpl in *.
  - subst tr. exists t, [EvConsoleError e; EvSend 500 "Error processing video."].
    split; [reflexivity|]. split; [exact Ht|]. left. eauto.
  - destruct Hshape as (content & ->).
    exists t, [EvWriteFile (outputPath +:+ "/master.m3u8") content;
               EvJson "Video processed with all streams." ("/streams/" +:+ url)].
    split; [simpl; now rewrite <- app_assoc|]. split; [exact Ht|]. right. eauto.
Qed.

Lemma stream_logs_count p l :
  (∀ msg, p (EvLog msg) = false) →
  ∀ index, count_events p (stream_logs_from index l) = 0.
Proof.
  intros Hp. induction l as [|s l IH]; intros index; simpl; [reflexivity|].
  now rewrite Hp, IH.
Qed.

Lemma completed_snoc tr e :
  completed (tr ++ [e]) = match e with EvJson _ _ => true | _ => false end.
Proof. unfold completed. now rewrite last_snoc. Qed.

End ServerFacts.

(** ** How often the container is probed *)

(** C5 (as amended): a job that completes has probed the container once for
    the analysis, once more for every video stream, twice for every audio
    stream and once for every subtitle stream of the inventory. *)
Theorem probes_of_completed_job ffprobe ffmpeg outputDir file_path file_filename h :
  completed (upload ffprobe ffmpeg outputDir file_path file_filename h).2 = true →
  ∃ metadata,
    ffprobe h file_path = Some metadata ∧
    count_events is_probe (upload ffprobe ffmpeg outputDir file_path file_filename h).2
    = 1 + length (video (inventory metadata))
        + 2 * length (audio (inventory metadata))
        + length (subtitle (inventory metadata)).
Proof.
  rewrite upload_run.
  destruct (ffprobe h file_path) as [md|]; [|discriminate].
  cbv zeta.
  destruct (createHLSForStreams _ _ _ _ _ _ _) as [[e|url] t] eqn:Hjob; cbn [snd].
  - replace ((EvProbe file_path true :: stream_logs md) ++ t ++
             [EvConsoleError e; EvSend 500 "Error processing video."])
      with (((EvProbe file_path true :: stream_logs md) ++ t ++ [EvConsoleError e])
            ++ [EvSend 500 "Error processing video."])
      by (now rewrite <- !app_assoc).
    rewrite completed_snoc. discriminate.
  - intros _. exists md. split; [reflexivity|].
    apply createHLS_probes in Hjob.
    rewrite !count_events_app, Hjob. simpl.
    unfold stream_logs. rewrite stream_logs_count by reflexivity. lia.
Qed.

Lemma probes_of_completed_job_witness :
  completed (upload (steady_probe one_video) ffmpeg_ok "/srv/output"
               "/srv/uploads/17-movie.mkv" "17-movie.mkv" []).2 = true
  ∧ ∃ metadata,
      steady_probe one_video [] "/srv/uploads/17-movie.mkv" = Some metadata ∧
      count_events is_probe
        (upload (steady_probe one_video) ffmpeg_ok "/srv/output"
           "/srv/uploads/17-movie.mkv" "17-movie.mkv" []).2
      = 1 + length (video (inventory metadata))
          + 2 * length (audio (inventory metadata))
          + length (subtitle (inventory metadata)).
Proof.
  split; [vm_compute; reflexivity|].
  apply (probes_of_completed_job (steady_probe one_video) ffmpeg_ok).
  vm_compute. reflexivity.
Defined.

(** C5 (as stated) fails: a container holding a single H.264 video stream
    is probed twice by a job that completes. *)
Lemma probed_twice_for_one_video :
  completed (upload (steady_probe one_video) ffmpeg_ok "/srv/output"
               "/srv/uploads/17-movie.mkv" "17-movie.mkv" []).2 = true
  ∧ count_events is_probe
      (upload (steady_probe one_video) ffmpeg_ok "/srv/output"
         "/srv/uploads/17-movie.mkv" "17-movie.mkv" []).2 = 2.
Proof. split; vm_compute; reflexivity. Qed.

(** ** Events that cannot occur where they should not *)

Lemma count_events_zero p tr :
  Forall (λ e, p e = false) tr → count_events p tr = 0.
Proof. induction 1 as [|e tr He _ IH]; simpl; [reflexivity|]. now rewrite He, IH. Qed.

Lemma count_events_zero_in p tr e :
  count_events p tr = 0 → In e tr → p e = false.
Proof.
  induction tr as [|e' tr IH]; simpl; [tauto|].
  intros Hc [->|Hin]; [destruct (p e); [discriminate|reflexivity]|].
  apply IH; [|exact Hin]. destruct (p e'); [discriminate|exact Hc].
Qed.

Lemma stream_logs_in l : ∀ index e,
  In e (stream_logs_from index l) → ∃ msg, e = EvLog msg.
Proof.
  induction l as [|s l IH]; intros index e; simpl; [tauto|].
  intros [<-|H]; [eauto|exact (IH _ _ H)].
Qed.

Lemma job_event_not_mkdir filePath outputPath streams e :
  job_event filePath outputPath streams e → is_mkdir e = false.
Proof.
  intros (i & idx & [[_ H]|[[_ H]|[_ H]]]); destruct e; simpl in *; tauto.
Qed.

Lemma streq_refl a : streq a a = true.
Proof. apply String.eqb_refl. Qed.

Lemma streq_append a b c : streq (a +:+ b) (a +:+ c) = streq b c.
Proof.
  unfold streq. induction a as [|ch a IH]; simpl; [reflexivity|].
  now rewrite Ascii.eqb_refl.
Qed.

Lemma job_events_no_master filePath outputPath streams t :
  Forall (job_event filePath outputPath streams) t →
  writes_to (outputPath +:+ "/master.m3u8") t = [].
Proof.
  induction 1 as [|e t He _ IH]; simpl; [reflexivity|].
  destruct He as (i & idx & [[_ H]|[[_ H]|[_ H]]]); destruct e; simpl in *;
    try tauto; try exact IH.
  destruct H as [-> _]. now rewrite streq_append.
Qed.

Lemma stream_logs_no_writes path l : ∀ index,
  writes_to path (stream_logs_from index l) = [].
Proof. induction l as [|s l IH]; intros index; simpl; auto. Qed.

(** ** The job directory *)

(** C7: when the first probe fails the handler only logs the error and
    answers 500, and no directory is created; when it succeeds, the one
    directory that is created is the job's, and it is created after the
    analysis has finished. *)
Theorem job_directory_after_analysis ffprobe ffmpeg outputDir file_path file_filename h :
  let tr := (upload ffprobe ffmpeg outputDir file_path file_filename h).2 in
  match ffprobe h file_path with
  | None =>
      tr = [EvProbe file_path false; EvConsoleError ProbeError;
            EvSend 500 "Error processing video."]
      ∧ count_events is_mkdir tr = 0
  | Some metadata =>
      ∃ rest,
        tr = (EvProbe file_path true :: stream_logs metadata)
             ++ EvMkdir (path_join outputDir (path_parse_name file_filename)) :: rest
        ∧ count_events is_mkdir (EvProbe file_path true :: stream_logs metadata) = 0
        ∧ count_events is_mkdir rest = 0
  end.
Proof.
  intros tr. subst tr.
  destruct (ffprobe h file_path) as [md|] eqn:Hp.
  - destruct (upload_events ffprobe ffmpeg outputDir file_path file_filename h md Hp)
      as (t & final & -> & Ht & Hfinal).
    exists (t ++ final). split; [reflexivity|]. split.
    + simpl. unfold stream_logs. now rewrite stream_logs_count.
    + rewrite count_events_app.
      rewrite (count_events_zero is_mkdir t).
      * destruct Hfinal as [[e ->]|(c & u & ->)]; reflexivity.
      * eapply Forall_impl; [exact Ht|]. intros e. apply job_event_not_mkdir.
  - rewrite upload_run, Hp. split; reflexivity.
Qed.

(** ** Failure of a generation *)

Lemma cause_of_failed_command err cmd :
  cause err (EvFfmpeg cmd false) → err = FfmpegError.
Proof. destruct err; simpl; tauto. Qed.

(** C6: when an ffmpeg command fails, it is the last call to the engine of
    that job: the handler logs the error and answers 500 with the fixed
    message, nothing was written to the job's [master.m3u8], and the
    success response is not sent. *)
Theorem failed_generation_aborts_job
    ffprobe ffmpeg outputDir file_path file_filename h cmd :
  In (EvFfmpeg cmd false)
     (upload ffprobe ffmpeg outputDir file_path file_filename h).2 →
  (∃ pre,
     (upload ffprobe ffmpeg outputDir file_path file_filename h).2
     = pre ++ [EvFfmpeg cmd false; EvConsoleError FfmpegError;
               EvSend 500 "Error processing video."]
     ∧ count_events is_failure pre = 0)
  ∧ writes_to (path_join outputDir (path_parse_name file_filename) +:+ "/master.m3u8")
      (upload ffprobe ffmpeg outputDir file_path file_filename h).2 = []
  ∧ completed (upload ffprobe ffmpeg outputDir file_path file_filename h).2 = false.
Proof.
  set (outputPath := path_join outputDir (path_parse_name file_filename)).
  rewrite upload_run.
  destruct (ffprobe h file_path) as [md|].
  2:{ simpl. intros [H|[H|[H|[]]]]; discriminate. }
  cbv zeta.
  pose proof (createHLS_outcome ffprobe ffmpeg outputDir file_path
                (path_parse_name file_filename) (inventory md)
                (h ++ EvProbe file_path true :: stream_logs md)) as Hout.
  destruct (createHLS_events ffprobe ffmpeg outputDir file_path
              (path_parse_name file_filename) (inventory md)
              (h ++ EvProbe file_path true :: stream_logs md))
    as (t' & Ht' & Hshape).
  fold outputPath in Ht', Hshape.
  assert (count_events is_failure (EvProbe file_path true :: stream_logs md) = 0)
    as Hanalysis.
  { simpl. unfold stream_logs. now rewrite stream_logs_count. }
  destruct (createHLSForStreams _ _ _ _ _ _ _) as [[err|url] t]; cbn [fst snd] in *.
  - destruct Hout as (pre & f & -> & Hpre & Hcause).
    intros Hin.
    assert (f = EvFfmpeg cmd false) as ->.
    { apply in_app_or in Hin as [Hin|Hin].
      { now apply (count_events_zero_in _ _ _ Hanalysis) in Hin. }
      apply in_app_or in Hin as [Hin|Hin].
      2:{ simpl in Hin. destruct Hin as [H|[H|[]]]; discriminate. }
      apply in_app_or in Hin as [Hin|Hin].
      { now apply (count_events_zero_in _ _ _ Hpre) in Hin. }
      simpl in Hin. destruct Hin as [H|[]]. now symmetry. }
    apply cause_of_failed_command in Hcause as ->.
    split; [|split].
    + exists ((EvProbe file_path true :: stream_logs md) ++ pre). split.
      * now rewrite <- !app_assoc.
      * now rewrite count_events_app, Hanalysis, Hpre.
    + rewrite Hshape, !writes_to_app. cbn [writes_to].
      unfold stream_logs. rewrite stream_logs_no_writes.
      now rewrite (job_events_no_master _ _ _ _ Ht').
    + replace ((EvProbe file_path true :: stream_logs md) ++ (pre ++ [EvFfmpeg cmd false])
               ++ [EvConsoleError FfmpegError; EvSend 500 "Error processing video."])
        with (((EvProbe file_path true :: stream_logs md) ++ (pre ++ [EvFfmpeg cmd false])
               ++ [EvConsoleError FfmpegError]) ++ [EvSend 500 "Error processing video."])
        by (now rewrite <- !app_assoc).
      now rewrite completed_snoc.
  - intros Hin. exfalso.
    apply in_app_or in Hin as [Hin|Hin].
    { now apply (count_events_zero_in _ _ _ Hanalysis) in Hin. }
    apply in_app_or in Hin as [Hin|Hin].
    { now apply (count_events_zero_in _ _ _ Hout) in Hin. }
    simpl in Hin. destruct Hin as [H|[]]. discriminate.
Qed.

Lemma failed_generation_aborts_job_witness :
  In (EvFfmpeg (audio_command "/srv/uploads/17-movie.mkv" "/srv/output/17-movie" 1 2 false)
        false)
     (upload (steady_probe mixed_container) ffmpeg_without_aac_encoder "/srv/output"
        "/srv/uploads/17-movie.mkv" "17-movie.mkv" []).2
  ∧ writes_to "/srv/output/17-movie/master.m3u8"
      (upload (steady_probe mixed_container) ffmpeg_without_aac_encoder "/srv/output"
         "/srv/uploads/17-movie.mkv" "17-movie.mkv" []).2 = []
  ∧ completed
      (upload (steady_probe mixed_container) ffmpeg_without_aac_encoder "/srv/output"
         "/srv/uploads/17-movie.mkv" "17-movie.mkv" []).2 = false.
Proof.
  assert (In (EvFfmpeg (audio_command "/srv/uploads/17-movie.mkv"
                          "/srv/output/17-movie" 1 2 false) false)
             (upload (steady_probe mixed_container) ffmpeg_without_aac_encoder
                "/srv/output" "/srv/uploads/17-movie.mkv" "17-movie.mkv" []).2) as Hin.
  { vm_compute. repeat (first [left; reflexivity | right]). }
  split; [exact Hin|].
  exact (proj2 (failed_generation_aborts_job _ _ _ _ _ _ _ Hin)).
Defined.

(** ** Names and segmenting parameters *)

Lemma video_command_generation filePath outputPath i streamIndex isH264 :
  hls_generation filePath outputPath "video" i streamIndex
    (video_command filePath outputPath i streamIndex isH264).
Proof. unfold hls_generation. repeat split. Qed.

Lemma audio_command_generation filePath outputPath i streamIndex isAAC :
  hls_generation filePath outputPath "audio" i streamIndex
    (audio_command filePath outputPath i streamIndex isAAC).
Proof. unfold hls_generation. repeat split. Qed.

Lemma subtitle_command_extraction filePath outputPath i streamIndex :
  subtitle_extraction filePath outputPath i streamIndex
    (subtitle_command filePath outputPath i streamIndex).
Proof. unfold subtitle_extraction. repeat split. Qed.


(** ** The entries a loop collects *)

(** A loop whose completed iterations append [out i x] has appended, when
    it completes, these lists in the order of the positions. *)
Lemma for_indexed_result {A} (body : nat → A → list string → M (list string))
    (out : nat → A → list string) :
  (∀ i x s h s' tr, body i x s h = (inr s', tr) → s' = s ++ out i x) →
  ∀ xs i s h s' tr,
    for_indexed body i xs s h = (inr s', tr) →
    s' = s ++ concat (map (λ p, out p.1 p.2) (enumerate_from i xs)).
Proof.
  intros Hbody. induction xs as [|x xs IH]; intros i s h s' tr.
  - rewrite for_indexed_nil. intros [= <- _]. simpl. now rewrite app_nil_r.
  - rewrite for_indexed_cons.
    destruct (body i x s h) as [[e|s1] t1] eqn:Hb; [discriminate|].
    destruct (for_indexed body (S i) xs s1 (h ++ t1)) as [r t2] eqn:Hl.
    simpl. intros [= -> _].
    rewrite (IH _ _ _ _ _ Hl), (Hbody _ _ _ _ _ _ Hb).
    now rewrite <- app_assoc.
Qed.

Lemma concat_singletons {A B} (f : A → B) (l : list A) :
  concat (map (λ p, [f p]) l) = map f l.
Proof. induction l as [|x l IH]; simpl; [reflexivity|]. now rewrite IH. Qed.

Lemma concat_optional {A B} (keep : A → bool) (f : A → B) (l : list A) :
  concat (map (λ p, if keep p then [f p] else []) l) = map f (List.filter keep l).
Proof.
  induction l as [|x l IH]; simpl; [reflexivity|].
  destruct (keep x); simpl; now rewrite IH.
Qed.

(** A job that completes ran its three loops to completion and wrote the
    master playlist once, from what they collected. *)
Lemma createHLS_completed ffprobe ffmpeg outputDir filePath fileName streams h url tr :
  createHLSForStreams ffprobe ffmpeg outputDir filePath fileName streams h
    = (inr url, tr) →
  let outputPath := path_join outputDir fileName in
  ∃ playlistEntries audioEntries subtitleEntries h1 h2 h3 t1 t2 t3,
    for_indexed (video_body ffprobe ffmpeg filePath outputPath) 0 (video streams) [] h1
      = (inr playlistEntries, t1)
    ∧ for_indexed (audio_body ffprobe ffmpeg filePath outputPath) 0 (audio streams) [] h2
      = (inr audioEntries, t2)
    ∧ for_indexed (subtitle_body ffprobe ffmpeg filePath outputPath) 0
        (subtitle streams) [] h3
      = (inr subtitleEntries, t3)
    ∧ writes_to (outputPath +:+ "/master.m3u8") tr
      = [master_playlist audioEntries subtitleEntries playlistEntries].
Proof.
  intros Hrun outputPath.
  destruct (createHLS_events ffprobe ffmpeg outputDir filePath fileName streams h)
    as (t & Ht & Hshape).
  revert Hshape. rewrite Hrun. cbn [fst snd]. intros (content & ->).
  revert Hrun. rewrite createHLS_run. cbv zeta. fold outputPath.
  destruct (for_indexed (video_body _ _ _ _) _ _ _ _) as [[e|pl] t1] eqn:Hv;
    [discriminate|].
  destruct (for_indexed (audio_body _ _ _ _) _ _ _ _) as [[e|au] t2] eqn:Ha;
    [discriminate|].
  destruct (for_indexed (subtitle_body _ _ _ _) _ _ _ _) as [[e|su] t3] eqn:Hs;
    [discriminate|].
  intros [= _ Heq].
  assert (content = master_playlist au su pl) as ->.
  { apply (f_equal (λ l, last l)) in Heq.
    rewrite !app_assoc, !last_snoc in Heq. now injection Heq as <-. }
  exists pl, au, su. do 6 eexists.
  split; [exact Hv|]. split; [exact Ha|]. split; [exact Hs|].
  subst outputPath. cbn [writes_to]. rewrite writes_to_app.
  rewrite (job_events_no_master _ _ _ _ Ht). simpl.
  now rewrite streq_refl.
Qed.

Section SteadyContainer.

Variable ffprobe : list Event → string → option Metadata.
Variable ffmpeg : list Event → Command → bool.
Variable outputDir filePath : string.
Variable metadata : Metadata.
Hypothesis probes_agree : steady ffprobe filePath metadata.

Lemma video_loop_result outputPath xs i s h s' tr :
  for_indexed (video_body ffprobe ffmpeg filePath outputPath) i xs s h = (inr s', tr) →
  s' = s ++ map (λ p, video_entry p.1) (enumerate_from i xs).
Proof.
  intros H. rewrite <- concat_singletons.
  revert H. apply (for_indexed_result _ (λ i _, [video_entry i])).
  clear. intros i x s h s' tr.
  unfold video_body, streamInfo_at, bind, probe, run, ret, throw.
  intros H. repeat case_match; simplify_eq; reflexivity.
Qed.

Lemma audio_loop_result outputPath xs i s h s' tr :
  for_indexed (audio_body ffprobe ffmpeg filePath outputPath) i xs s h = (inr s', tr) →
  s' = s ++ map (λ p, audio_entry (language_of (md_streams metadata !! p.2)) p.1)
                (enumerate_from i xs).
Proof.
  intros H. rewrite <- concat_singletons.
  revert H.
  apply (for_indexed_result _
           (λ i x, [audio_entry (language_of (md_streams metadata !! x)) i])).
  clear -probes_agree. intros i x s h s' tr.
  unfold audio_body, isAudioStreamAAC, streamInfo_at, bind, probe, run, ret, throw.
  rewrite !probes_agree.
  intros H. repeat case_match; simplify_eq; reflexivity.
Qed.

Lemma subtitle_loop_result outputPath xs i s h s' tr :
  for_indexed (subtitle_body ffprobe ffmpeg filePath outputPath) i xs s h = (inr s', tr) →
  s' = s ++ map (λ p, subtitle_entry (language_of (md_streams metadata !! p.2)) p.1)
                (List.filter (accepted metadata) (enumerate_from i xs)).
Proof.
  intros H. rewrite <- concat_optional.
  revert H.
  apply (for_indexed_result _
           (λ i x, if accepted metadata (i, x)
                   then [subtitle_entry (language_of (md_streams metadata !! x)) i]
                   else [])).
  clear -probes_agree. intros i x s h s' tr.
  unfold subtitle_body, streamInfo_at, bind, probe, run, ret, throw, emit, accepted.
  rewrite !probes_agree. simpl.
  intros H. repeat case_match; simplify_eq; simpl;
    rewrite ?app_nil_r; try reflexivity; try discriminate.
Qed.

(** The master playlist of a job that completes. *)
Lemma createHLS_master fileName streams h url tr :
  createHLSForStreams ffprobe ffmpeg outputDir filePath fileName streams h
    = (inr url, tr) →
  writes_to (path_join outputDir fileName +:+ "/master.m3u8") tr
  = [join nl (expected_audio metadata (audio streams)
              ++ expected_subtitle metadata (subtitle streams)
              ++ expected_video (video streams))].
Proof.
  intros Hrun.
  destruct (createHLS_completed _ _ _ _ _ _ _ _ _ Hrun)
    as (pl & au & su & h1 & h2 & h3 & t1 & t2 & t3 & Hv & Ha & Hs & ->).
  apply video_loop_result in Hv. apply audio_loop_result in Ha.
  apply subtitle_loop_result in Hs. now subst pl au su.
Qed.

End SteadyContainer.

(** ** The order of the master playlist *)

Lemma enumerate_from_positions {A} (l : list A) : ∀ i,
  map fst (enumerate_from i l) = seq i (length l).
Proof. induction l as [|x l IH]; intros i; simpl; [reflexivity|]. now rewrite IH. Qed.

(** [DEFAULT=YES] is written at position 0 and nowhere else. *)
Lemma yes_only_at_position_zero i : yes_no i = "YES" ↔ i = 0.
Proof. destruct i; simpl; split; (reflexivity || discriminate). Qed.

Lemma failed_upload_not_completed pre e :
  completed (pre ++ [EvConsoleError e; EvSend 500 "Error processing video."]) = false.
Proof.
  replace (pre ++ [EvConsoleError e; EvSend 500 "Error processing video."])
    with ((pre ++ [EvConsoleError e]) ++ [EvSend 500 "Error processing video."])
    by (now rewrite <- app_assoc).
  now rewrite completed_snoc.
Qed.

(** C3: when every probe of the job reports the same container and the job
    completes, the one text written to [master.m3u8] is made of the audio
    entries in the order of their type-local index, one per audio stream,
    then the subtitle entries in the order of their type-local index, one
    per subtitle stream that is not skipped, then the video entries in the
    order of their type-local index, one per video stream.  An entry is
    what the code pushes for one stream; a video entry spans two rows of
    text, the tag and the URI. *)
Theorem master_playlist_order
    ffprobe ffmpeg outputDir file_path file_filename h metadata :
  steady ffprobe file_path metadata →
  completed (upload ffprobe ffmpeg outputDir file_path file_filename h).2 = true →
  let streams := inventory metadata in
  let lang_of stream := language_of (md_streams metadata !! stream) in
  writes_to (path_join outputDir (path_parse_name file_filename) +:+ "/master.m3u8")
    (upload ffprobe ffmpeg outputDir file_path file_filename h).2
  = [join nl
       (map (λ p, audio_entry (lang_of p.2) p.1)
            (enumerate_from 0 (audio streams))
        ++ map (λ p, subtitle_entry (lang_of p.2) p.1)
               (List.filter (accepted metadata) (enumerate_from 0 (subtitle streams)))
        ++ map (λ p, video_entry p.1)
               (enumerate_from 0 (video streams)))].
Proof.
  intros Hsteady. rewrite upload_run, (Hsteady h). cbv zeta.
  destruct (createHLSForStreams _ _ _ _ _ _ _) as [[e|url] t] eqn:Hjob; cbn [snd].
  - rewrite app_assoc, failed_upload_not_completed. discriminate.
  - intros _.
    apply (createHLS_master _ _ _ _ _ Hsteady) in Hjob.
    rewrite !writes_to_app, Hjob. cbn [writes_to].
    unfold stream_logs. rewrite stream_logs_no_writes. reflexivity.
Qed.

Lemma master_playlist_order_witness :
  steady (steady_probe mixed_container) "/srv/uploads/17-movie.mkv" mixed_container
  ∧ completed
      (upload (steady_probe mixed_container) ffmpeg_ok "/srv/output"
         "/srv/uploads/17-movie.mkv" "17-movie.mkv" []).2 = true
  ∧ writes_to "/srv/output/17-movie/master.m3u8"
      (upload (steady_probe mixed_container) ffmpeg_ok "/srv/output"
         "/srv/uploads/17-movie.mkv" "17-movie.mkv" []).2
    = [join nl [audio_entry "eng" 0; audio_entry "fra" 1;
                subtitle_entry "eng" 0; video_entry 0]].
Proof.
  split; [intros h; reflexivity|]. split; [vm_compute; reflexivity|].
  etransitivity.
  - apply (master_playlist_order (steady_probe mixed_container) ffmpeg_ok
             "/srv/output" "/srv/uploads/17-movie.mkv" "17-movie.mkv" []
             mixed_container).
    + intros h. reflexivity.
    + vm_compute. reflexivity.
  - vm_compute. reflexivity.
Defined.

(** ** The text of the master playlist *)

Lemma last_char_cons c s :
  last_char (String c s) =
    match last_char s with
    | Some d => Some d
    | None => Some c
    end.
Proof.
  revert c. induction s as [|c' s IH]; intros c; [reflexivity|].
  change (last_char (String c (String c' s))) with (last_char (String c' s)).
  rewrite (IH c'). now destruct (last_char s).
Qed.

Lemma last_char_append a b :
  last_char (a +:+ b) =
    match last_char b with
    | Some c => Some c
    | None => last_char a
    end.
Proof.
  induction a as [|ch a IH].
  - change (EmptyString +:+ b) with b. now destruct (last_char b).
  - change (String ch a +:+ b) with (String ch (a +:+ b)).
    rewrite !last_char_cons, IH.
    now destruct (last_char b), (last_char a).
Qed.

Lemma last_char_closing a b c :
  last_char b = Some c → last_char (a +:+ b) = Some c.
Proof. intros H. now rewrite last_char_append, H. Qed.

Lemma audio_entry_delimited lang i : well_delimited (audio_entry lang i).
Proof.
  split; [eexists; reflexivity|]. exists (ascii_of_nat 34). split; [|discriminate].
  unfold audio_entry. repeat (apply last_char_closing). reflexivity.
Qed.

Lemma subtitle_entry_delimited lang i : well_delimited (subtitle_entry lang i).
Proof.
  split; [eexists; reflexivity|]. exists (ascii_of_nat 34). split; [|discriminate].
  unfold subtitle_entry. repeat (apply last_char_closing). reflexivity.
Qed.

Lemma video_entry_delimited i : well_delimited (video_entry i).
Proof.
  split; [eexists; reflexivity|]. exists "8"%char. split; [|discriminate].
  unfold video_entry. repeat (apply last_char_closing). reflexivity.
Qed.

Lemma append_assoc a b c : (a +:+ b) +:+ c = a +:+ (b +:+ c).
Proof.
  induction a as [|ch a IH]; [reflexivity|].
  exact (f_equal (String ch) IH).
Qed.

Lemma join_cons sep x y rest :
  join sep (x :: y :: rest) = x +:+ sep +:+ join sep (y :: rest).
Proof. reflexivity. Qed.

Lemma join_delimited l :
  l ≠ [] → Forall well_delimited l → well_delimited (join nl l).
Proof.
  induction l as [|x l IH]; [congruence|]. intros _ Hall.
  apply Forall_cons in Hall as [Hx Hl].
  destruct l as [|y rest]; [exact Hx|].
  rewrite join_cons. specialize (IH ltac:(discriminate) Hl).
  destruct Hx as [[tail ->] _]. destruct IH as [_ (c & Hc & Hnl)].
  split.
  - exists (tail +:+ nl +:+ join nl (y :: rest)). apply append_assoc.
  - exists c. split; [|exact Hnl]. now do 2 apply last_char_closing.
Qed.

Lemma delimited_text_facts text :
  text = EmptyString ∨ well_delimited text →
  String.prefix "#EXTM3U" text = false
  ∧ last_char text ≠ Some (ascii_of_nat 10).
Proof.
  intros [->|[[tail ->] (c & Hc & Hnl)]]; [split; [reflexivity|discriminate]|].
  split; [reflexivity|]. rewrite Hc. congruence.
Qed.

(** A loop whose completed iterations append a list related by [R] to the
    position and the element has appended one such list per element, in
    order. *)
Lemma for_indexed_outputs {A} (body : nat → A → list string → M (list string))
    (R : nat → A → list string → Prop) :
  (∀ i x s h s' tr, body i x s h = (inr s', tr) → ∃ out, s' = s ++ out ∧ R i x out) →
  ∀ xs i s h s' tr,
    for_indexed body i xs s h = (inr s', tr) →
    ∃ outs,
      s' = s ++ concat outs
      ∧ Forall2 (λ (p : nat * A) out, R p.1 p.2 out) (enumerate_from i xs) outs.
Proof.
  intros Hbody. induction xs as [|x xs IH]; intros i s h s' tr.
  - rewrite for_indexed_nil. intros [= <- _]. exists []. simpl.
    rewrite app_nil_r. split; [reflexivity|constructor].
  - rewrite for_indexed_cons.
    destruct (body i x s h) as [[e|s1] t1] eqn:Hb; [discriminate|].
    destruct (for_indexed body (S i) xs s1 (h ++ t1)) as [r t2] eqn:Hl.
    simpl. intros [= -> _].
    destruct (Hbody _ _ _ _ _ _ Hb) as (out & -> & Hout).
    destruct (IH _ _ _ _ _ Hl) as (outs & -> & Houts).
    exists (out :: outs). simpl. rewrite <- app_assoc. split; [reflexivity|].
    constructor; [exact Hout|exact Houts].
Qed.

Lemma audio_loop_outputs ffprobe ffmpeg filePath outputPath xs i s h s' tr :
  for_indexed (audio_body ffprobe ffmpeg filePath outputPath) i xs s h = (inr s', tr) →
  ∃ outs,
    s' = s ++ concat outs
    ∧ Forall2 (λ (p : nat * nat) out, ∃ lang, out = [audio_entry lang p.1])
              (enumerate_from i xs) outs.
Proof.
  apply (for_indexed_outputs _ (λ i _ out, ∃ lang, out = [audio_entry lang i])).
  clear. intros i x s h s' tr.
  unfold audio_body, isAudioStreamAAC, streamInfo_at, bind, probe, run, ret, throw.
  intros H. repeat case_match; simplify_eq.
  eexists. split; [reflexivity|]. eexists. reflexivity.
Qed.

Lemma subtitle_loop_outputs ffprobe ffmpeg filePath outputPath xs i s h s' tr :
  for_indexed (subtitle_body ffprobe ffmpeg filePath outputPath) i xs s h
    = (inr s', tr) →
  ∃ outs,
    s' = s ++ concat outs
    ∧ Forall2 (λ (p : nat * nat) out,
                 out = [] ∨ ∃ lang, out = [subtitle_entry lang p.1])
              (enumerate_from i xs) outs.
Proof.
  apply (for_indexed_outputs _
           (λ i _ out, out = [] ∨ ∃ lang, out = [subtitle_entry lang i])).
  clear. intros i x s h s' tr.
  unfold subtitle_body, streamInfo_at, bind, probe, run, ret, throw, emit.
  intros H. repeat case_match; simplify_eq.
  - exists []. rewrite app_nil_r. auto.
  - eexists. split; [reflexivity|]. right. eexists. reflexivity.
Qed.

Lemma entries_of_job_delimited streams audioEntries subtitleEntries playlistEntries :
  entries_of_job streams audioEntries subtitleEntries playlistEntries →
  Forall well_delimited (audioEntries ++ subtitleEntries ++ playlistEntries).
Proof.
  intros [(outsA & -> & HA) [(outsS & -> & HS) ->]].
  rewrite !Forall_app. repeat split.
  - induction HA as [|p out ps outs (lang & ->) _ IH]; simpl; [constructor|].
    constructor; [apply audio_entry_delimited|exact IH].
  - induction HS as [|p out ps outs [->|(lang & ->)] _ IH]; simpl;
      [constructor|exact IH|].
    constructor; [apply subtitle_entry_delimited|exact IH].
  - apply Forall_forall. intros line Hin.
    apply list_elem_of_In, in_map_iff in Hin as (p & <- & _).
    apply video_entry_delimited.
Qed.

(** A loop whose completed iterations push as many entries as they emit
    events of kind [p] has pushed, when it completes, as many entries as
    it emitted such events. *)
Lemma for_indexed_pushes {A} (body : nat → A → list string → M (list string)) p :
  (∀ i x s h s' tr, body i x s h = (inr s', tr) →
     length s' = length s + count_events p tr) →
  ∀ xs i s h s' tr,
    for_indexed body i xs s h = (inr s', tr) →
    length s' = length s + count_events p tr.
Proof.
  intros Hbody. induction xs as [|x xs IH]; intros i s h s' tr.
  - rewrite for_indexed_nil. intros [= <- <-]. simpl. lia.
  - rewrite for_indexed_cons.
    destruct (body i x s h) as [[e|s1] t1] eqn:Hb; [discriminate|].
    destruct (for_indexed body (S i) xs s1 (h ++ t1)) as [r t2] eqn:Hl.
    simpl. intros [= -> <-].
    rewrite (IH _ _ _ _ _ Hl), (Hbody _ _ _ _ _ _ Hb), count_events_app. lia.
Qed.

Lemma video_body_extracts_nothing ffprobe ffmpeg filePath outputPath i x s h s' tr :
  video_body ffprobe ffmpeg filePath outputPath i x s h = (inr s', tr) →
  count_events is_extracted tr = 0.
Proof.
  unfold video_body, streamInfo_at, bind, probe, run, ret, throw.
  intros H. repeat case_match; simplify_eq; reflexivity.
Qed.

Lemma audio_body_extracts_nothing ffprobe ffmpeg filePath outputPath i x s h s' tr :
  audio_body ffprobe ffmpeg filePath outputPath i x s h = (inr s', tr) →
  count_events is_extracted tr = 0.
Proof.
  unfold audio_body, isAudioStreamAAC, streamInfo_at, bind, probe, run, ret, throw.
  intros H. repeat case_match; simplify_eq; reflexivity.
Qed.

Lemma subtitle_body_pushes ffprobe ffmpeg filePath outputPath i x s h s' tr :
  subtitle_body ffprobe ffmpeg filePath outputPath i x s h = (inr s', tr) →
  length s' = length s + count_events is_extracted tr.
Proof.
  unfold subtitle_body, streamInfo_at, bind, probe, run, ret, throw, emit.
  intros H. repeat case_match; simplify_eq; simpl; rewrite ?length_app; simpl; lia.
Qed.

(** What a request answered with success wrote to its master playlist: the
    entries of the job over the inventory of the first probe, as many
    subtitle entries as subtitle tracks were extracted, and, when every
    probe reported that same container, the entries the container
    dictates. *)
Lemma upload_job_entries ffprobe ffmpeg outputDir file_path file_filename h :
  completed (upload ffprobe ffmpeg outputDir file_path file_filename h).2 = true →
  ∃ metadata audioEntries subtitleEntries playlistEntries,
    ffprobe h file_path = Some metadata
    ∧ writes_to (path_join outputDir (path_parse_name file_filename) +:+ "/master.m3u8")
        (upload ffprobe ffmpeg outputDir file_path file_filename h).2
      = [join nl (audioEntries ++ subtitleEntries ++ playlistEntries)]
    ∧ entries_of_job (inventory metadata) audioEntries subtitleEntries playlistEntries
    ∧ length subtitleEntries
      = count_events is_extracted
          (upload ffprobe ffmpeg outputDir file_path file_filename h).2
    ∧ (steady ffprobe file_path metadata →
       audioEntries = expected_audio metadata (audio (inventory metadata))
       ∧ subtitleEntries = expected_subtitle metadata (subtitle (inventory metadata))).
Proof.
  rewrite upload_run.
  destruct (ffprobe h file_path) as [md|]; [|discriminate]. cbv zeta.
  set (fileName := path_parse_name file_filename).
  set (outputPath := path_join outputDir fileName).
  set (h1 := h ++ EvProbe file_path true :: stream_logs md).
  destruct (createHLS_events ffprobe ffmpeg outputDir file_path fileName (inventory md) h1)
    as (t' & Ht' & Hshape).
  fold outputPath in Ht', Hshape.
  destruct (createHLSForStreams _ _ _ _ _ _ _) as [[e|url] t] eqn:Hjob;
    cbn [fst snd] in *.
  { rewrite app_assoc, failed_upload_not_completed. discriminate. }
  intros _. destruct Hshape as (content & Ht).
  revert Hjob. rewrite createHLS_run. cbv zeta. fold outputPath.
  destruct (for_indexed (video_body _ _ _ _) _ _ _ _) as [[e|pl] t1] eqn:Hv;
    [discriminate|].
  destruct (for_indexed (audio_body _ _ _ _) _ _ _ _) as [[e|au] t2] eqn:Ha;
    [discriminate|].
  destruct (for_indexed (subtitle_body _ _ _ _) _ _ _ _) as [[e|su] t3] eqn:Hs;
    [discriminate|].
  intros [= _ Heq]. rewrite Ht in Heq.
  assert (t' = t1 ++ t2 ++ t3 ∧ content = master_playlist au su pl) as [-> ->].
  { replace (t1 ++ t2 ++ t3 ++ [EvWriteFile (outputPath +:+ "/master.m3u8")
                                   (master_playlist au su pl)])
      with ((t1 ++ t2 ++ t3) ++ [EvWriteFile (outputPath +:+ "/master.m3u8")
                                   (master_playlist au su pl)]) in Heq
      by (now rewrite <- !app_assoc).
    injection Heq as Heq. apply app_inj_tail in Heq as [Heq1 Heq2].
    split; [now symmetry|]. now injection Heq2 as ->. }
  exists md, au, su, pl. split; [reflexivity|].
  assert (∀ p, (∀ msg, p (EvLog msg) = false) → p (EvProbe file_path true) = false →
               count_events p (EvProbe file_path true :: stream_logs md) = 0) as Hlogs.
  { intros p Hlog Hprobe. simpl. rewrite Hprobe. unfold stream_logs.
    now rewrite stream_logs_count. }
  split; [|split; [|split]].
  - rewrite Ht, !writes_to_app. cbn [writes_to]. rewrite writes_to_app.
    unfold stream_logs. rewrite stream_logs_no_writes.
    rewrite (job_events_no_master _ _ _ _ Ht'). simpl. now rewrite streq_refl.
  - split; [|split].
    + apply audio_loop_outputs in Ha as (outs & -> & Houts). eauto.
    + apply subtitle_loop_outputs in Hs as (outs & -> & Houts). eauto.
    + apply video_loop_result in Hv. exact Hv.
  - rewrite Ht, !count_events_app, Hlogs by reflexivity.
    cbn [count_events is_extracted]. rewrite !count_events_app.
    apply (for_indexed_count _ is_extracted 0) in Hv;
      [|apply video_body_extracts_nothing].
    apply (for_indexed_count _ is_extracted 0) in Ha;
      [|apply audio_body_extracts_nothing].
    apply (for_indexed_pushes _ is_extracted) in Hs;
      [|apply subtitle_body_pushes].
    rewrite Hv, Ha, Hs. simpl. lia.
  - intros Hsteady. split.
    + now apply (audio_loop_result _ _ _ _ Hsteady) in Ha.
    + now apply (subtitle_loop_result _ _ _ _ Hsteady) in Hs.
Qed.

(** C10: the text a completed job writes to [master.m3u8] is the entries of
    that job separated by one line feed each: one audio entry per audio
    stream of the inventory, by position, then at most one subtitle entry
    per subtitle stream, by position, as many as subtitle tracks were
    extracted, then one video entry per video stream, by position; when
    every probe reported the same container these are exactly the entries
    the container dictates, one subtitle entry for every stream that is
    not skipped.  The text does not start with [#EXTM3U] and its last
    character is not a line feed. *)
Theorem master_playlist_text
    ffprobe ffmpeg outputDir file_path file_filename h :
  completed (upload ffprobe ffmpeg outputDir file_path file_filename h).2 = true →
  ∃ metadata audioEntries subtitleEntries playlistEntries,
    ffprobe h file_path = Some metadata
    ∧ writes_to (path_join outputDir (path_parse_name file_filename) +:+ "/master.m3u8")
        (upload ffprobe ffmpeg outputDir file_path file_filename h).2
      = [join nl (audioEntries ++ subtitleEntries ++ playlistEntries)]
    ∧ entries_of_job (inventory metadata) audioEntries subtitleEntries playlistEntries
    ∧ length subtitleEntries
      = count_events is_extracted
          (upload ffprobe ffmpeg outputDir file_path file_filename h).2
    ∧ (steady ffprobe file_path metadata →
       audioEntries = expected_audio metadata (audio (inventory metadata))
       ∧ subtitleEntries = expected_subtitle metadata (subtitle (inventory metadata)))
    ∧ String.prefix "#EXTM3U"
        (join nl (audioEntries ++ subtitleEntries ++ playlistEntries)) = false
    ∧ last_char (join nl (audioEntries ++ subtitleEntries ++ playlistEntries))
      ≠ Some (ascii_of_nat 10).
Proof.
  intros Hdone.
  destruct (upload_job_entries _ _ _ _ _ _ Hdone)
    as (md & A & S & V & Hp & Hw & Hentries & Hcount & Hsteady).
  exists md, A, S, V.
  do 5 (split; [assumption|]).
  apply delimited_text_facts.
  destruct (A ++ S ++ V) as [|x l] eqn:Hl; [now left|]. right.
  rewrite <- Hl. apply join_delimited; [rewrite Hl; discriminate|].
  exact (entries_of_job_delimited _ _ _ _ Hentries).
Qed.

Lemma master_playlist_text_witness :
  completed
    (upload (steady_probe mixed_container) ffmpeg_ok "/srv/output"
       "/srv/uploads/17-movie.mkv" "17-movie.mkv" []).2 = true
  ∧ ∃ metadata audioEntries subtitleEntries playlistEntries,
      steady_probe mixed_container [] "/srv/uploads/17-movie.mkv" = Some metadata
      ∧ writes_to "/srv/output/17-movie/master.m3u8"
          (upload (steady_probe mixed_container) ffmpeg_ok "/srv/output"
             "/srv/uploads/17-movie.mkv" "17-movie.mkv" []).2
        = [join nl (audioEntries ++ subtitleEntries ++ playlistEntries)]
      ∧ entries_of_job (inventory metadata) audioEntries subtitleEntries playlistEntries
      ∧ length subtitleEntries
        = count_events is_extracted
            (upload (steady_probe mixed_container) ffmpeg_ok "/srv/output"
               "/srv/uploads/17-movie.mkv" "17-movie.mkv" []).2
      ∧ (steady (steady_probe mixed_container) "/srv/uploads/17-movie.mkv" metadata →
         audioEntries = expected_audio metadata (audio (inventory metadata))
         ∧ subtitleEntries = expected_subtitle metadata (subtitle (inventory metadata)))
      ∧ String.prefix "#EXTM3U"
          (join nl (audioEntries ++ subtitleEntries ++ playlistEntries)) = false
      ∧ last_char (join nl (audioEntries ++ subtitleEntries ++ playlistEntries))
        ≠ Some (ascii_of_nat 10).
Proof.
  split; [vm_compute; reflexivity|].
  refine (master_playlist_text (steady_probe mixed_container) ffmpeg_ok
            "/srv/output" "/srv/uploads/17-movie.mkv" "17-movie.mkv" [] _).
  vm_compute. reflexivity.
Defined.

(** ** The inventory *)

Lemma classify_audio index stream streams :
  audio (classify index stream streams)
  = if streq (codec_type stream) "audio"
    then audio streams ++ [index] else audio streams.
Proof. unfold classify. now repeat case_match. Qed.

(** A bucket holds the indices of the streams whose type is the bucket's. *)
Lemma inventory_from_bucket (bucket : Streams → list nat) (ty : string) :
  (∀ index stream streams,
     bucket (classify index stream streams)
     = if streq (codec_type stream) ty
       then bucket streams ++ [index] else bucket streams) →
  ∀ l index acc streamIndex,
    In streamIndex (bucket (inventory_from index l acc)) →
    In streamIndex (bucket acc)
    ∨ ∃ k info, streamIndex = index + k ∧ l !! k = Some info ∧ codec_type info = ty.
Proof.
  intros Hclassify. induction l as [|s l IH]; intros index acc idx; simpl; [auto|].
  intros Hin. apply IH in Hin as [Hin|(k & info & -> & Hk & Hty)].
  - rewrite Hclassify in Hin. destruct (streq (codec_type s) ty) eqn:Hs; [|auto].
    apply in_app_or in Hin as [Hin|[<-|[]]]; [auto|]. right.
    exists 0, s. rewrite Nat.add_0_r. repeat split.
    now apply String.eqb_eq.
  - right. exists (S k), info. repeat split; [lia|exact Hk|exact Hty].
Qed.

Lemma inventory_audio metadata streamIndex info :
  In streamIndex (audio (inventory metadata)) →
  md_streams metadata !! streamIndex = Some info →
  codec_type info = "audio".
Proof.
  intros Hin Hinfo.
  apply (inventory_from_bucket audio "audio" classify_audio) in Hin
    as [[]|(k & info' & -> & Hk & Hty)].
  simpl in Hinfo. congruence.
Qed.

Lemma find_audio_at_found l : ∀ start k info,
  l !! k = Some info → codec_type info = "audio" →
  find_audio_at (start + k) start l = Some info.
Proof.
  induction l as [|s l IH]; intros start k info Hk Hty; [discriminate|].
  destruct k as [|k]; simpl in *.
  - injection Hk as ->. rewrite Hty, Nat.add_0_r, Nat.eqb_refl. reflexivity.
  - replace (Nat.eqb start (start + S k)) with false
      by (symmetry; apply Nat.eqb_neq; lia).
    rewrite andb_false_r. replace (start + S k) with (S start + k) by lia.
    now apply IH.
Qed.

(** For an audio stream, [isAudioStreamAAC] compares its codec with [aac]. *)
Lemma isAAC_of_audio metadata streamIndex info :
  md_streams metadata !! streamIndex = Some info →
  codec_type info = "audio" →
  isAAC_of metadata streamIndex = streq (codec_name info) "aac".
Proof.
  intros Hinfo Hty. unfold isAAC_of.
  pose proof (find_audio_at_found _ 0 streamIndex info Hinfo Hty) as Hfind.
  simpl in Hfind. now rewrite Hfind.
Qed.

(** ** Jobs on a steady container with an engine that never fails *)

Section SteadyJob.

Variable ffprobe : list Event → string → option Metadata.
Variable ffmpeg : list Event → Command → bool.
Variable filePath outputPath : string.
Variable metadata : Metadata.
Hypothesis probes_agree : steady ffprobe filePath metadata.
Hypothesis commands_end : always_ends ffmpeg.

Lemma video_body_steady i streamIndex info s h :
  md_streams metadata !! streamIndex = Some info →
  video_body ffprobe ffmpeg filePath outputPath i streamIndex s h
  = (inr (s ++ [video_entry i]),
     [EvProbe filePath true;
      EvFfmpeg (video_command filePath outputPath i streamIndex (isH264_of info)) true]).
Proof.
  intros Hinfo.
  unfold video_body, streamInfo_at, bind, probe, run, ret.
  now rewrite probes_agree, Hinfo, commands_end.
Qed.

Lemma audio_body_steady i streamIndex s h :
  audio_body ffprobe ffmpeg filePath outputPath i streamIndex s h
  = (inr (s ++ [audio_entry (language_of (md_streams metadata !! streamIndex)) i]),
     [EvProbe filePath true; EvProbe filePath true;
      EvFfmpeg (audio_command filePath outputPath i streamIndex
                  (isAAC_of metadata streamIndex)) true]).
Proof.
  unfold audio_body, isAudioStreamAAC, streamInfo_at, bind, probe, run, ret.
  now rewrite !probes_agree, commands_end.
Qed.

Lemma subtitle_body_steady i streamIndex info s h :
  md_streams metadata !! streamIndex = Some info →
  unsupported_subtitle info = false →
  subtitle_body ffprobe ffmpeg filePath outputPath i streamIndex s h
  = (inr (s ++ [subtitle_entry (language_of (Some info)) i]),
     [EvProbe filePath true;
      EvFfmpeg (subtitle_command filePath outputPath i streamIndex) true;
      EvWriteFile (outputPath +:+ "/sub_" +:+ pretty i +:+ ".m3u8")
        (sub_m3u8_content i)]).
Proof.
  intros Hinfo Hok.
  unfold subtitle_body, streamInfo_at, bind, probe, run, ret, emit.
  now rewrite probes_agree, Hinfo, Hok, commands_end.
Qed.

End SteadyJob.

Lemma stream_logs_no_commands l : ∀ index,
  commands_of (stream_logs_from index l) = [].
Proof. induction l as [|s l IH]; intros index; simpl; auto. Qed.



(** ** The default rendition *)

(** C1 fails on the code: for an H.264 video stream followed by a SubRip
    and an ASS subtitle stream, the SubRip stream is skipped and the ASS
    stream, accepted as subtitle stream 1, gets [DEFAULT=NO]: the master
    playlist has one subtitle rendition and none that is the default. *)
Theorem skipped_first_subtitle_leaves_no_default :
  writes_to "/srv/output/17-movie/master.m3u8"
    (upload (steady_probe srt_then_ass) ffmpeg_ok "/srv/output"
       "/srv/uploads/17-movie.mkv" "17-movie.mkv" []).2
  = [join nl [subtitle_entry "eng" 1; video_entry 0]]
  ∧ occurrences "TYPE=SUBTITLES" (join nl [subtitle_entry "eng" 1; video_entry 0]) = 1
  ∧ occurrences "DEFAULT=YES" (join nl [subtitle_entry "eng" 1; video_entry 0]) = 0
  ∧ occurrences "DEFAULT=NO" (join nl [subtitle_entry "eng" 1; video_entry 0]) = 1.
Proof. repeat split; vm_compute; reflexivity. Qed.

(** ** The decision per type and codec *)

Lemma unsupported_subtitle_iff info :
  unsupported_subtitle info = true
  ↔ codec_name info = "hdmv_pgs_subtitle" ∨ codec_name info = "subrip".
Proof.
  unfold unsupported_subtitle, streq.
  rewrite orb_true_iff, !String.eqb_eq. reflexivity.
Qed.



(** ** Job identifiers *)

Lemma all_chars_append p a b :
  all_chars p (a +:+ b) = all_chars p a && all_chars p b.
Proof.
  induction a as [|c a IH]; [reflexivity|].
  change (String c a +:+ b) with (String c (a +:+ b)). simpl.
  now rewrite IH, andb_assoc.
Qed.

Lemma all_chars_impl (p q : ascii → bool) s :
  (∀ c, p c = true → q c = true) →
  all_chars p s = true → all_chars q s = true.
Proof.
  intros Hpq. induction s as [|c s IH]; simpl; [reflexivity|].
  rewrite !andb_true_iff. intros [Hc Hs]. auto.
Qed.

Lemma digit_not_slash c : is_digit c = true → negb (Ascii.eqb c "/") = true.
Proof. destruct c as [[] [] [] [] [] [] [] []]; vm_compute; congruence. Qed.

Lemma digit_not_dot c : is_digit c = true → Ascii.eqb c "." = false.
Proof. destruct c as [[] [] [] [] [] [] [] []]; vm_compute; congruence. Qed.

Lemma pretty_N_char_digit x : is_digit (pretty_N_char x) = true.
Proof. unfold pretty_N_char. now repeat case_match. Qed.

Lemma pretty_N_go_digits x : ∀ s,
  all_chars is_digit s = true → all_chars is_digit (pretty_N_go x s) = true.
Proof.
  induction (N.lt_wf_0 x) as [x _ IH]; intros s Hs.
  assert (x = 0 ∨ 0 < x)%N as [->|Hx] by lia.
  - now rewrite pretty_N_go_0.
  - rewrite pretty_N_go_step by exact Hx. apply IH.
    + now apply N.div_lt.
    + simpl. now rewrite pretty_N_char_digit, Hs.
Qed.

Lemma pretty_N_go_grows x : ∀ s,
  (String.length s <= String.length (pretty_N_go x s))%nat.
Proof.
  induction (N.lt_wf_0 x) as [x _ IH]; intros s.
  assert (x = 0 ∨ 0 < x)%N as [->|Hx] by lia.
  - now rewrite pretty_N_go_0.
  - rewrite pretty_N_go_step by exact Hx.
    etransitivity; [|apply IH; now apply N.div_lt]. simpl. lia.
Qed.

(** The decimal text of a clock reading: digits, and at least one. *)
Lemma pretty_N_digits (x : N) :
  all_chars is_digit (pretty x) = true ∧ pretty x ≠ EmptyString.
Proof.
  unfold pretty, pretty_N. destruct (decide (x = 0)%N) as [->|Hx].
  - split; [reflexivity|discriminate].
  - split; [now apply pretty_N_go_digits|].
    rewrite pretty_N_go_step by lia.
    pose proof (pretty_N_go_grows (x `div` 10)%N
                  (String (pretty_N_char (x `mod` 10)) EmptyString)) as Hlen.
    intros Heq. rewrite Heq in Hlen. simpl in Hlen. lia.
Qed.

Lemma basename_go_no_slash s : ∀ last cur,
  no_slash s = true →
  basename_go last cur s
  = if streq (cur +:+ s) EmptyString then last else cur +:+ s.
Proof.
  induction s as [|c s IH]; intros last cur Hs.
  - simpl. replace (cur +:+ EmptyString) with cur; [reflexivity|].
    clear. induction cur as [|c cur IH]; [reflexivity|].
    change (String c cur +:+ EmptyString) with (String c (cur +:+ EmptyString)).
    now rewrite <- IH.
  - unfold no_slash in Hs. simpl in Hs. apply andb_true_iff in Hs as [Hc Hs].
    cbn [basename_go]. apply negb_true_iff in Hc. rewrite Hc.
    rewrite (IH _ _ Hs), append_assoc. reflexivity.
Qed.

Lemma basename_no_slash s : no_slash s = true → basename s = s.
Proof.
  intros Hs. unfold basename. rewrite (basename_go_no_slash _ _ _ Hs).
  change (EmptyString +:+ s) with s. unfold streq. now destruct s.
Qed.

Lemma has_dot_append a b : has_dot (a +:+ b) = has_dot a || has_dot b.
Proof.
  induction a as [|c a IH]; [reflexivity|].
  change (String c a +:+ b) with (String c (a +:+ b)). simpl.
  now rewrite IH, orb_assoc.
Qed.

Lemma before_last_dot_no_dot s : has_dot s = false → before_last_dot s = s.
Proof.
  destruct s as [|c s]; [reflexivity|]. simpl.
  intros H. apply orb_false_iff in H as [-> ->]. reflexivity.
Qed.

(** A prefix without a dot is kept whole when the extension is cut off. *)
Lemma before_last_dot_prefix p r :
  has_dot p = false → before_last_dot (p +:+ r) = p +:+ before_last_dot r.
Proof.
  induction p as [|c p IH]; [reflexivity|]. simpl.
  intros H. apply orb_false_iff in H as [Hc Hp].
  change (String c p +:+ r) with (String c (p +:+ r)).
  change (String c p +:+ before_last_dot r)
    with (String c (p +:+ before_last_dot r)).
  cbn [before_last_dot]. rewrite has_dot_append, Hp, Hc. simpl.
  destruct (has_dot r) eqn:Hr.
  - now rewrite (IH Hp).
  - now rewrite (before_last_dot_no_dot _ Hr).
Qed.

Lemma digits_no_dot s : all_chars is_digit s = true → has_dot s = false.
Proof.
  induction s as [|c s IH]; simpl; [reflexivity|].
  rewrite andb_true_iff. intros [Hc Hs]. now rewrite (digit_not_dot _ Hc), IH.
Qed.

(** The job name is the clock reading followed by a text that only
    depends on the client's file name. *)
Lemma job_name_split now name :
  no_slash name = true →
  job_name {| clock := now; originalname := name |}
  = pretty now +:+ before_last_dot ("-" +:+ name).
Proof.
  intros Hname. unfold job_name, storage_filename, path_parse_name. simpl.
  destruct (pretty_N_digits now) as [Hdigits Hne].
  rewrite basename_no_slash.
  2:{ unfold no_slash. rewrite !all_chars_append, andb_true_iff. split.
      - eapply all_chars_impl; [apply digit_not_slash|exact Hdigits].
      - simpl. exact Hname. }
  rewrite before_last_dot_prefix by now apply digits_no_dot.
  destruct (pretty now) as [|c p] eqn:Hp; [congruence|].
  replace (streq (String c p +:+ "-" +:+ name) "..") with false.
  - reflexivity.
  - simpl in Hdigits. apply andb_true_iff in Hdigits as [Hc _].
    apply digit_not_dot in Hc. unfold streq.
    change (String c p +:+ "-" +:+ name) with (String c (p +:+ "-" +:+ name)).
    simpl. now rewrite Hc.
Qed.

Lemma length_append a b :
  String.length (a +:+ b) = String.length a + String.length b.
Proof.
  induction a as [|c a IH]; [reflexivity|].
  change (String c a +:+ b) with (String c (a +:+ b)). simpl. now rewrite IH.
Qed.

Lemma append_cancel_r r : ∀ a b, a +:+ r = b +:+ r → a = b.
Proof.
  induction a as [|c a IH]; intros [|d b] H.
  - reflexivity.
  - apply (f_equal String.length) in H. rewrite !length_append in H.
    simpl in H. lia.
  - apply (f_equal String.length) in H. rewrite !length_append in H.
    simpl in H. lia.
  - change (String c (a +:+ r) = String d (b +:+ r)) in H.
    injection H as -> H. now rewrite (IH _ H).
Qed.

(** C9 (as amended): two submissions of the same file name whose clock
    readings differ get different job names. *)
Theorem job_names_differ_when_clocks_differ (s1 s2 : Submission) :
  originalname s1 = originalname s2 →
  no_slash (originalname s1) = true →
  clock s1 ≠ clock s2 →
  job_name s1 ≠ job_name s2.
Proof.
  destruct s1 as [t1 name], s2 as [t2 name2]. simpl.
  intros <- Hname Hclock Heq.
  rewrite !job_name_split in Heq by exact Hname.
  apply append_cancel_r in Heq. now apply (inj pretty) in Heq.
Qed.

Lemma job_names_differ_when_clocks_differ_witness :
  no_slash "movie.mkv" = true
  ∧ job_name {| clock := 1700000000000; originalname := "movie.mkv" |}
    ≠ job_name {| clock := 1700000000001; originalname := "movie.mkv" |}.
Proof.
  split; [reflexivity|].
  apply job_names_differ_when_clocks_differ.
  - reflexivity.
  - reflexivity.
  - discriminate.
Defined.

(** C9 (as stated) fails: two submissions of [movie.mkv] that read the
    same millisecond from the clock get the same job name, hence the same
    output directory. *)
Lemma same_millisecond_same_job_name :
  map job_name
    [ {| clock := 1700000000000; originalname := "movie.mkv" |};
      {| clock := 1700000000000; originalname := "movie.mkv" |} ]
  = ["1700000000000-movie"; "1700000000000-movie"].
Proof. vm_compute. reflexivity. Qed.

(** ** What [analyzeStreams] puts in each bucket *)

Lemma classify_video index stream streams :
  video (classify index stream streams)
  = if streq (codec_type stream) "video"
    then video streams ++ [index] else video streams.
Proof. unfold classify. now repeat case_match. Qed.

Lemma classify_subtitle index stream streams :
  subtitle (classify index stream streams)
  = if streq (codec_type stream) "subtitle"
    then subtitle streams ++ [index] else subtitle streams.
Proof. unfold classify. now repeat case_match. Qed.

(** A bucket grows by the indices of the streams of its type, in order. *)
Lemma inventory_from_indices (bucket : Streams → list nat) (ty : string) :
  (∀ index stream streams,
     bucket (classify index stream streams)
     = if streq (codec_type stream) ty
       then bucket streams ++ [index] else bucket streams) →
  ∀ l index acc,
    bucket (inventory_from index l acc)
    = bucket acc
      ++ map fst (List.filter (λ p, streq (codec_type p.2) ty) (enumerate_from index l)).
Proof.
  intros Hclassify. induction l as [|s l IH]; intros index acc; simpl.
  - now rewrite app_nil_r.
  - rewrite IH, Hclassify.
    destruct (streq (codec_type s) ty); simpl; [|reflexivity].
    now rewrite <- app_assoc.
Qed.

(** X1: [analyzeStreams] fails exactly when the probe fails, and then logs
    nothing.  Otherwise it logs one line per reported stream and returns,
    for each of the three types, the container indices of the streams of
    that type in container order; a stream of any other type is in no
    bucket. *)
Theorem analyzeStreams_buckets ffprobe filePath h :
  match ffprobe h filePath with
  | None =>
      analyzeStreams ffprobe filePath h = (inl ProbeError, [EvProbe filePath false])
  | Some metadata =>
      ∃ streams logs,
        analyzeStreams ffprobe filePath h = (inr streams, EvProbe filePath true :: logs)
        ∧ length logs = length (md_streams metadata)
        ∧ video streams = indices_of_type "video" (md_streams metadata)
        ∧ audio streams = indices_of_type "audio" (md_streams metadata)
        ∧ subtitle streams = indices_of_type "subtitle" (md_streams metadata)
  end.
Proof.
  rewrite analyzeStreams_run. destruct (ffprobe h filePath) as [md|]; [|reflexivity].
  exists (inventory md), (stream_logs md). split; [reflexivity|]. split.
  { unfold stream_logs. generalize 0. induction (md_streams md) as [|s l IH];
      intros n; simpl; [reflexivity|]. now rewrite IH. }
  unfold inventory, indices_of_type.
  rewrite (inventory_from_indices video "video" classify_video),
    (inventory_from_indices audio "audio" classify_audio),
    (inventory_from_indices subtitle "subtitle" classify_subtitle).
  auto.
Qed.

(** ** What [isAudioStreamAAC] answers *)

Lemma find_audio_at_spec l : ∀ streamIndex start,
  find_audio_at streamIndex start l
  = if Nat.leb start streamIndex
    then match l !! (streamIndex - start) with
         | Some s => if streq (codec_type s) "audio" then Some s else None
         | None => None
         end
    else None.
Proof.
  induction l as [|s l IH]; intros t start; cbn [find_audio_at].
  - now destruct (Nat.leb start t).
  - rewrite IH. destruct (Nat.eqb_spec start t) as [->|Hne].
    + rewrite Nat.leb_refl, Nat.sub_diag, andb_true_r.
      assert (Nat.leb (S t) t = false) as -> by (apply Nat.leb_gt; lia).
      change ((s :: l) !! 0) with (Some s). reflexivity.
    + rewrite andb_false_r.
      destruct (Nat.leb start t) eqn:Hle.
      * apply Nat.leb_le in Hle.
        assert (Nat.leb (S start) t = true) as -> by (apply Nat.leb_le; lia).
        replace (t - start) with (S (t - S start)) by lia. reflexivity.
      * apply Nat.leb_gt in Hle.
        assert (Nat.leb (S start) t = false) as -> by (apply Nat.leb_gt; lia).
        reflexivity.
Qed.

(** X2: [isAudioStreamAAC] rejects only when the probe fails.  When the
    probe answers, it resolves to [true] exactly when the container has a
    stream at [streamIndex], that stream is an audio stream and its codec
    is [aac]; an index out of range or a stream of another type gives
    [false], not an error. *)
Theorem isAudioStreamAAC_answer ffprobe filePath streamIndex h :
  match ffprobe h filePath with
  | None =>
      isAudioStreamAAC ffprobe filePath streamIndex h
      = (inl ProbeError, [EvProbe filePath false])
  | Some metadata =>
      ∃ answer,
        isAudioStreamAAC ffprobe filePath streamIndex h
        = (inr answer, [EvProbe filePath true])
        ∧ (answer = true ↔
           ∃ info, md_streams metadata !! streamIndex = Some info
                   ∧ codec_type info = "audio"
                   ∧ codec_name info = "aac")
  end.
Proof.
  unfold isAudioStreamAAC, bind, probe, ret.
  destruct (ffprobe h filePath) as [md|]; [|reflexivity].
  eexists. split; [reflexivity|].
  unfold isAAC_of. rewrite find_audio_at_spec. simpl. rewrite Nat.sub_0_r.
  destruct (md_streams md !! streamIndex) as [info|].
  - destruct (streq (codec_type info) "audio") eqn:Hty.
    + apply String.eqb_eq in Hty. unfold streq. rewrite String.eqb_eq. split.
      * intros Hc. exists info. auto.
      * intros (info' & [= <-] & _ & Hc). exact Hc.
    + split; [discriminate|]. intros (info' & [= <-] & Hty' & _).
      unfold streq in Hty. rewrite Hty' in Hty. discriminate.
  - split; [discriminate|]. intros (info' & [=] & _).
Qed.

(** ** The language of a rendition *)

(** X3: the language written into an audio or subtitle entry is never
    empty: it is the [language] tag of the stream when the stream, its tags
    and a non-empty [language] tag are all there, and [und] in every other
    case. *)
Theorem language_of_fallback (streamInfo : option Stream) :
  language_of streamInfo ≠ EmptyString
  ∧ (∀ info t l,
       streamInfo = Some info → tags info = Some t →
       t !! "language" = Some l → l ≠ EmptyString →
       language_of streamInfo = l)
  ∧ ((∀ info t l,
        streamInfo = Some info → tags info = Some t →
        t !! "language" = Some l → l = EmptyString) →
     language_of streamInfo = "und").
Proof.
  unfold language_of. split; [|split].
  - destruct streamInfo as [info|]; [|discriminate].
    destruct (tags info) as [t|]; [|discriminate].
    destruct (t !! "language") as [l|]; [|discriminate].
    destruct (streq l EmptyString) eqn:He; [discriminate|].
    intros ->. discriminate.
  - intros info t l -> Ht Hl Hne. rewrite Ht, Hl.
    destruct (streq l EmptyString) eqn:He; [|reflexivity].
    apply String.eqb_eq in He. contradiction.
  - intros Hall. destruct streamInfo as [info|]; [|reflexivity].
    destruct (tags info) as [t|] eqn:Ht; [|reflexivity].
    destruct (t !! "language") as [l|] eqn:Hl; [|reflexivity].
    rewrite (Hall info t l eq_refl Ht Hl). reflexivity.
Qed.

(** ** One answer per request *)

Lemma job_event_not_response filePath outputPath streams e :
  job_event filePath outputPath streams e → is_response e = false.
Proof.
  intros (i & idx & [[_ H]|[[_ H]|[_ H]]]); destruct e; simpl in *; tauto.
Qed.

(** On a request that carries a file the handler does not throw and its
    trace ends with the one response event it holds. *)
Lemma upload_trace_ends_with_answer ffprobe ffmpeg outputDir file_path file_filename h :
  (upload ffprobe ffmpeg outputDir file_path file_filename h).1 = inr tt
  ∧ ∃ pre response,
      (upload ffprobe ffmpeg outputDir file_path file_filename h).2 = pre ++ [response]
      ∧ is_response response = true
      ∧ count_events is_response pre = 0.
Proof.
  split.
  { rewrite upload_run. destruct (ffprobe h file_path); [|reflexivity].
    cbv zeta. now destruct (createHLSForStreams _ _ _ _ _ _ _) as [[e|url] t]. }
  destruct (ffprobe h file_path) as [md|] eqn:Hp.
  2:{ rewrite upload_run, Hp.
      exists [EvProbe file_path false; EvConsoleError ProbeError],
             (EvSend 500 "Error processing video."). auto. }
  destruct (upload_events ffprobe ffmpeg outputDir file_path file_filename h md Hp)
    as (t & final & -> & Ht & Hfinal).
  assert (count_events is_response
            ((EvProbe file_path true :: stream_logs md)
             ++ EvMkdir (path_join outputDir (path_parse_name file_filename)) :: t) = 0)
    as Hquiet.
  { rewrite count_events_app. simpl. unfold stream_logs.
    rewrite stream_logs_count by reflexivity.
    apply count_events_zero. eapply Forall_impl; [exact Ht|].
    intros e. apply job_event_not_response. }
  destruct Hfinal as [[e ->]|(content & url & ->)].
  - exists (((EvProbe file_path true :: stream_logs md)
             ++ EvMkdir (path_join outputDir (path_parse_name file_filename)) :: t)
            ++ [EvConsoleError e]), (EvSend 500 "Error processing video.").
    split; [|split; [reflexivity|]].
    + rewrite <- !app_assoc. reflexivity.
    + rewrite count_events_app, Hquiet. reflexivity.
  - eexists (((EvProbe file_path true :: stream_logs md)
              ++ EvMkdir (path_join outputDir (path_parse_name file_filename)) :: t)
             ++ [EvWriteFile _ content]), (EvJson _ url).
    split; [|split; [reflexivity|]].
    + rewrite <- !app_assoc. reflexivity.
    + rewrite count_events_app, Hquiet. reflexivity.
Qed.

(** X4: a request without a [video] part makes the handler throw a
    [TypeError] at line 189, before the [try]: it emits no event, so it
    sends no answer itself.  On a request that carries a file the handler
    does not throw and answers exactly once, as the last thing it does: its
    trace ends with the one response event it holds, whatever the engines
    do. *)
Theorem upload_answers_once ffprobe ffmpeg outputDir req_file h :
  match req_file with
  | None =>
      post_upload ffprobe ffmpeg outputDir None h = (inl TypeError, [])
  | Some file =>
      (post_upload ffprobe ffmpeg outputDir (Some file) h).1 = inr tt
      ∧ ∃ pre response,
          (post_upload ffprobe ffmpeg outputDir (Some file) h).2 = pre ++ [response]
          ∧ is_response response = true
          ∧ count_events is_response pre = 0
  end.
Proof.
  destruct req_file as [[file_path file_filename]|]; [|reflexivity].
  apply upload_trace_ends_with_answer.
Qed.

(** ** The master playlist and the answer *)

Lemma createHLS_url ffprobe ffmpeg outputDir filePath fileName streams h url tr :
  createHLSForStreams ffprobe ffmpeg outputDir filePath fileName streams h
    = (inr url, tr) →
  url = fileName +:+ "/master.m3u8".
Proof.
  rewrite createHLS_run. cbv zeta.
  destruct (for_indexed (video_body _ _ _ _) _ _ _ _) as [[e|pl] t1];
    [discriminate|].
  destruct (for_indexed (audio_body _ _ _ _) _ _ _ _) as [[e|au] t2];
    [discriminate|].
  destruct (for_indexed (subtitle_body _ _ _ _) _ _ _ _) as [[e|su] t3];
    [discriminate|].
  now intros [= <- _].
Qed.

(** On a request that carries a file, the master playlist is written
    exactly when the handler answers with success. *)
Lemma upload_master_and_answer ffprobe ffmpeg outputDir file_path file_filename h :
  let tr := (upload ffprobe ffmpeg outputDir file_path file_filename h).2 in
  let job := path_parse_name file_filename in
  if completed tr
  then (∃ content,
          writes_to (path_join outputDir job +:+ "/master.m3u8") tr = [content])
       ∧ last tr = Some (EvJson "Video processed with all streams."
                           ("/streams/" +:+ job +:+ "/master.m3u8"))
  else writes_to (path_join outputDir job +:+ "/master.m3u8") tr = []
       ∧ last tr = Some (EvSend 500 "Error processing video.").
Proof.
  intros tr job. subst tr. rewrite upload_run.
  destruct (ffprobe h file_path) as [md|]; [|split; reflexivity].
  cbv zeta.
  destruct (createHLS_events ffprobe ffmpeg outputDir file_path job (inventory md)
              (h ++ EvProbe file_path true :: stream_logs md))
    as (t' & Ht' & Hshape).
  fold job.
  destruct (createHLSForStreams _ _ _ _ _ _ _) as [[e|url] t] eqn:Hjob;
    cbn [fst snd] in *.
  - rewrite app_assoc, failed_upload_not_completed. split.
    + rewrite !writes_to_app, Hshape. cbn [writes_to].
      unfold stream_logs. rewrite stream_logs_no_writes.
      now rewrite (job_events_no_master _ _ _ _ Ht').
    + replace (((EvProbe file_path true :: stream_logs md) ++ t)
               ++ [EvConsoleError e; EvSend 500 "Error processing video."])
        with ((((EvProbe file_path true :: stream_logs md) ++ t)
               ++ [EvConsoleError e]) ++ [EvSend 500 "Error processing video."])
        by (now rewrite <- !app_assoc).
      apply last_snoc.
  - rewrite app_assoc, completed_snoc.
    pose proof (createHLS_url _ _ _ _ _ _ _ _ _ Hjob) as ->.
    destruct (createHLS_completed _ _ _ _ _ _ _ _ _ Hjob)
      as (pl & au & su & h1 & h2 & h3 & t1 & t2 & t3 & _ & _ & _ & Hw).
    split.
    + eexists. rewrite !writes_to_app, Hw. cbn [writes_to].
      unfold stream_logs. rewrite stream_logs_no_writes. reflexivity.
    + apply last_snoc.
Qed.

(** X5: the job's [master.m3u8] is written exactly when the handler answers
    with success.  A request that is answered with success wrote it once
    and returns the URL [/streams/<job>/master.m3u8]; a request that
    carries a file and is not answered with success, whichever probe or
    command failed, is answered 500 with the fixed message and wrote no
    master playlist; a request without a [video] part, on which the
    handler throws at line 189, writes no file at all and gets no answer
    from the handler. *)
Theorem master_written_iff_success ffprobe ffmpeg outputDir req_file h :
  let tr := (post_upload ffprobe ffmpeg outputDir req_file h).2 in
  match req_file with
  | None =>
      (post_upload ffprobe ffmpeg outputDir req_file h).1 = inl TypeError
      ∧ completed tr = false
      ∧ (∀ path, writes_to path tr = [])
      ∧ count_events is_response tr = 0
  | Some file =>
      let job := path_parse_name (upload_filename file) in
      if completed tr
      then (∃ content,
              writes_to (path_join outputDir job +:+ "/master.m3u8") tr = [content])
           ∧ last tr = Some (EvJson "Video processed with all streams."
                               ("/streams/" +:+ job +:+ "/master.m3u8"))
      else writes_to (path_join outputDir job +:+ "/master.m3u8") tr = []
           ∧ last tr = Some (EvSend 500 "Error processing video.")
  end.
Proof.
  destruct req_file as [[file_path file_filename]|].
  - apply upload_master_and_answer.
  - repeat split.
Qed.

(** ** Bounds on the calls to the engine *)

Lemma for_indexed_count_le {A St} (body : nat → A → St → M St) p k :
  (∀ i x s h, (count_events p (body i x s h).2 <= k)%nat) →
  ∀ xs i s h, (count_events p (for_indexed body i xs s h).2 <= k * length xs)%nat.
Proof.
  intros Hbody. induction xs as [|x xs IH]; intros i s h.
  - simpl. lia.
  - rewrite for_indexed_cons. specialize (Hbody i x s h).
    destruct (body i x s h) as [[e|s1] t1]; simpl in *; [lia|].
    rewrite count_events_app. specialize (IH (S i) s1 (h ++ t1)). lia.
Qed.

Lemma commands_of_length tr : length (commands_of tr) = count_events is_command tr.
Proof.
  induction tr as [|e tr IH]; simpl; [reflexivity|].
  destruct e; simpl; now rewrite ?IH.
Qed.

Lemma video_body_bounds ffprobe ffmpeg filePath outputPath i streamIndex s h :
  (count_events is_probe
     (video_body ffprobe ffmpeg filePath outputPath i streamIndex s h).2 <= 1)%nat
  ∧ (count_events is_command
       (video_body ffprobe ffmpeg filePath outputPath i streamIndex s h).2 <= 1)%nat.
Proof.
  unfold video_body, streamInfo_at, bind, probe, run, ret, throw.
  repeat case_match; simplify_eq; simpl; lia.
Qed.

Lemma audio_body_bounds ffprobe ffmpeg filePath outputPath i streamIndex s h :
  (count_events is_probe
     (audio_body ffprobe ffmpeg filePath outputPath i streamIndex s h).2 <= 2)%nat
  ∧ (count_events is_command
       (audio_body ffprobe ffmpeg filePath outputPath i streamIndex s h).2 <= 1)%nat.
Proof.
  unfold audio_body, isAudioStreamAAC, streamInfo_at, bind, probe, run, ret, throw.
  repeat case_match; simplify_eq; simpl; lia.
Qed.

Lemma subtitle_body_bounds ffprobe ffmpeg filePath outputPath i streamIndex s h :
  (count_events is_probe
     (subtitle_body ffprobe ffmpeg filePath outputPath i streamIndex s h).2 <= 1)%nat
  ∧ (count_events is_command
       (subtitle_body ffprobe ffmpeg filePath outputPath i streamIndex s h).2 <= 1)%nat.
Proof.
  unfold subtitle_body, streamInfo_at, bind, probe, run, ret, throw, emit.
  repeat case_match; simplify_eq; simpl; lia.
Qed.

Lemma createHLS_bounds ffprobe ffmpeg outputDir filePath fileName streams h :
  (count_events is_probe
     (createHLSForStreams ffprobe ffmpeg outputDir filePath fileName streams h).2
   <= length (video streams) + 2 * length (audio streams) + length (subtitle streams))%nat
  ∧ (count_events is_command
       (createHLSForStreams ffprobe ffmpeg outputDir filePath fileName streams h).2
     <= length (video streams) + length (audio streams) + length (subtitle streams))%nat.
Proof.
  rewrite createHLS_run. cbv zeta.
  set (outputPath := path_join outputDir fileName).
  set (h0 := h ++ [EvMkdir outputPath]).
  pose proof (for_indexed_count_le _ is_probe 1
    (λ i x s h, proj1 (video_body_bounds ffprobe ffmpeg filePath outputPath i x s h))
    (video streams) 0 [] h0) as Hv1.
  pose proof (for_indexed_count_le _ is_command 1
    (λ i x s h, proj2 (video_body_bounds ffprobe ffmpeg filePath outputPath i x s h))
    (video streams) 0 [] h0) as Hv2.
  destruct (for_indexed (video_body _ _ _ _) _ _ _ _) as [[e|pl] t1];
    cbn [fst snd] in *; [simpl; lia|].
  pose proof (for_indexed_count_le _ is_probe 2
    (λ i x s h, proj1 (audio_body_bounds ffprobe ffmpeg filePath outputPath i x s h))
    (audio streams) 0 [] (h0 ++ t1)) as Ha1.
  pose proof (for_indexed_count_le _ is_command 1
    (λ i x s h, proj2 (audio_body_bounds ffprobe ffmpeg filePath outputPath i x s h))
    (audio streams) 0 [] (h0 ++ t1)) as Ha2.
  destruct (for_indexed (audio_body _ _ _ _) _ _ _ _) as [[e|au] t2];
    cbn [fst snd] in *; [simpl; rewrite !count_events_app; lia|].
  pose proof (for_indexed_count_le _ is_probe 1
    (λ i x s h, proj1 (subtitle_body_bounds ffprobe ffmpeg filePath outputPath i x s h))
    (subtitle streams) 0 [] ((h0 ++ t1) ++ t2)) as Hs1.
  pose proof (for_indexed_count_le _ is_command 1
    (λ i x s h, proj2 (subtitle_body_bounds ffprobe ffmpeg filePath outputPath i x s h))
    (subtitle streams) 0 [] ((h0 ++ t1) ++ t2)) as Hs2.
  destruct (for_indexed (subtitle_body _ _ _ _) _ _ _ _) as [[e|su] t3];
    cbn [fst snd] in *; simpl; rewrite !count_events_app; simpl; lia.
Qed.

(** X6: whatever fails, a request probes the container at most
    1 + V + 2A + S times and runs at most V + A + S ffmpeg commands, where
    V, A and S count the video, audio and subtitle streams of the first
    probe's answer; when the first probe fails there is that one probe and
    no command. *)
Theorem engine_calls_are_bounded
    ffprobe ffmpeg outputDir file_path file_filename h :
  let tr := (upload ffprobe ffmpeg outputDir file_path file_filename h).2 in
  match ffprobe h file_path with
  | None => count_events is_probe tr = 1 ∧ commands_of tr = []
  | Some metadata =>
      (count_events is_probe tr
       <= 1 + length (video (inventory metadata))
          + 2 * length (audio (inventory metadata))
          + length (subtitle (inventory metadata)))%nat
      ∧ (length (commands_of tr)
         <= length (video (inventory metadata))
            + length (audio (inventory metadata))
            + length (subtitle (inventory metadata)))%nat
  end.
Proof.
  intros tr. subst tr. rewrite upload_run.
  destruct (ffprobe h file_path) as [md|]; [|split; reflexivity].
  cbv zeta.
  pose proof (createHLS_bounds ffprobe ffmpeg outputDir file_path
                (path_parse_name file_filename) (inventory md)
                (h ++ EvProbe file_path true :: stream_logs md)) as [Hp Hc].
  rewrite commands_of_length.
  destruct (createHLSForStreams _ _ _ _ _ _ _) as [[e|url] t]; cbn [fst snd] in *;
    rewrite !count_events_app; simpl; unfold stream_logs;
    rewrite !stream_logs_count by reflexivity; simpl; lia.
Qed.

(** ** A job stays in its directory *)

Lemma prefix_dir dir rest :
  String.prefix (dir +:+ "/") (dir +:+ String "/" rest) = true.
Proof.
  induction dir as [|c dir IH].
  - destruct rest; reflexivity.
  - change (String.prefix (String c (dir +:+ "/")) (String c (dir +:+ String "/" rest))
            = true).
    simpl. destruct (ascii_dec c c); [exact IH|congruence].
Qed.

Lemma job_event_within filePath outputPath streams e :
  job_event filePath outputPath streams e → within_job filePath outputPath e.
Proof.
  intros (i & idx & [[_ H]|[[_ H]|[_ H]]]); destruct e; simpl in *; try tauto.
  - destruct H as [b ->]. split; [reflexivity|]. split; [apply prefix_dir|].
    intros pattern [= <-]. apply prefix_dir.
  - destruct H as [b ->]. split; [reflexivity|]. split; [apply prefix_dir|].
    intros pattern [= <-]. apply prefix_dir.
  - subst cmd. split; [reflexivity|]. split; [apply prefix_dir|].
    intros pattern [=].
  - destruct H as [-> _]. apply prefix_dir.
Qed.


(** ** The listing of processed videos *)

Lemma master_path outputDir name :
  path_join (path_join outputDir name) "master.m3u8"
  = outputDir +:+ "/" +:+ name +:+ "/master.m3u8".
Proof. unfold path_join. rewrite !append_assoc. reflexivity. Qed.

Lemma collect_videos_spec outputDir existsSync dirs : ∀ found,
  collect_videos outputDir existsSync dirs found
  = found ++ map video_of (List.filter (has_master outputDir existsSync) dirs).
Proof.
  induction dirs as [|d dirs IH]; intros found; simpl.
  - now rewrite app_nil_r.
  - rewrite IH. unfold has_master at 2. rewrite master_path.
    destruct (dirent_isDirectory d); simpl; [|reflexivity].
    destruct (existsSync _); simpl; [|reflexivity].
    now rewrite <- app_assoc.
Qed.

(** X8: [GET /videos] answers 500 with its fixed message when the output
    directory cannot be read.  Otherwise it lists, in the order of the
    directory entries, exactly the entries that are directories holding a
    [master.m3u8], each with the URL [/streams/<name>/master.m3u8]; plain
    files and directories without a master playlist are left out. *)
Theorem videos_lists_directories_with_master outputDir readdir existsSync :
  match readdir outputDir with
  | None =>
      videos outputDir readdir existsSync = ListingFailed 500 "Error listing videos"
  | Some dirs =>
      videos outputDir readdir existsSync
      = Listed (map video_of (List.filter (has_master outputDir existsSync) dirs))
  end.
Proof.
  unfold videos. destruct (readdir outputDir) as [dirs|]; [|reflexivity].
  now rewrite collect_videos_spec.
Qed.

(** A request answered with success ends by writing the master playlist
    and sending its URL. *)
Lemma upload_completed ffprobe ffmpeg outputDir file_path file_filename h :
  completed (upload ffprobe ffmpeg outputDir file_path file_filename h).2 = true →
  ∃ pre content,
    (upload ffprobe ffmpeg outputDir file_path file_filename h).2
    = pre ++ [EvWriteFile (path_join outputDir (path_parse_name file_filename)
                           +:+ "/master.m3u8") content;
              EvJson "Video processed with all streams."
                ("/streams/" +:+ path_parse_name file_filename +:+ "/master.m3u8")].
Proof.
  rewrite upload_run.
  destruct (ffprobe h file_path) as [md|]; [|discriminate]. cbv zeta.
  destruct (createHLS_events ffprobe ffmpeg outputDir file_path
              (path_parse_name file_filename) (inventory md)
              (h ++ EvProbe file_path true :: stream_logs md))
    as (t' & _ & Hshape).
  destruct (createHLSForStreams _ _ _ _ _ _ _) as [[e|url] t] eqn:Hjob;
    cbn [fst snd] in *.
  { rewrite app_assoc, failed_upload_not_completed. discriminate. }
  intros _. apply createHLS_url in Hjob as ->.
  destruct Hshape as (content & ->).
  exists ((EvProbe file_path true :: stream_logs md)
          ++ EvMkdir (path_join outputDir (path_parse_name file_filename)) :: t'),
         content.
  rewrite <- ?app_assoc. simpl. rewrite <- ?app_assoc. reflexivity.
Qed.

(** X9: a job that was answered with success shows up in [GET /videos]
    under the URL the upload returned, as long as the files it wrote are
    still there and its directory is among the entries read. *)
Theorem completed_job_is_listed
    ffprobe ffmpeg outputDir file_path file_filename h readdir existsSync dirs :
  completed (upload ffprobe ffmpeg outputDir file_path file_filename h).2 = true →
  keeps_writes existsSync (upload ffprobe ffmpeg outputDir file_path file_filename h).2 →
  readdir outputDir = Some dirs →
  In {| dirent_name := path_parse_name file_filename; dirent_isDirectory := true |}
     dirs →
  ∃ listed url,
    videos outputDir readdir existsSync = Listed listed
    ∧ last (upload ffprobe ffmpeg outputDir file_path file_filename h).2
      = Some (EvJson "Video processed with all streams." url)
    ∧ In {| video_name := path_parse_name file_filename; video_url := url |} listed.
Proof.
  intros Hdone Hfs Hread Hdir.
  destruct (upload_completed _ _ _ _ _ _ Hdone) as (pre & content & Htr).
  exists (map video_of (List.filter (has_master outputDir existsSync) dirs)),
         ("/streams/" +:+ path_parse_name file_filename +:+ "/master.m3u8").
  split; [|split].
  - unfold videos. rewrite Hread. now rewrite collect_videos_spec.
  - rewrite Htr.
    change [EvWriteFile (path_join outputDir (path_parse_name file_filename)
                         +:+ "/master.m3u8") content;
            EvJson "Video processed with all streams."
              ("/streams/" +:+ path_parse_name file_filename +:+ "/master.m3u8")]
      with ([EvWriteFile (path_join outputDir (path_parse_name file_filename)
                          +:+ "/master.m3u8") content]
            ++ [EvJson "Video processed with all streams."
                  ("/streams/" +:+ path_parse_name file_filename +:+ "/master.m3u8")]).
    rewrite app_assoc. apply last_snoc.
  - apply in_map_iff.
    exists {| dirent_name := path_parse_name file_filename;
              dirent_isDirectory := true |}.
    split; [reflexivity|].
    apply filter_In. split; [exact Hdir|].
    unfold has_master. simpl. rewrite <- master_path.
    apply (Hfs _ content). rewrite Htr. apply in_or_app. right. left. reflexivity.
Qed.

Lemma completed_job_is_listed_witness :
  completed
    (upload (steady_probe one_video) ffmpeg_ok "/srv/output"
       "/srv/uploads/17-movie.mkv" "17-movie.mkv" []).2 = true
  ∧ ∃ listed url,
      videos "/srv/output" one_job_listing every_path_exists = Listed listed
      ∧ last (upload (steady_probe one_video) ffmpeg_ok "/srv/output"
                "/srv/uploads/17-movie.mkv" "17-movie.mkv" []).2
        = Some (EvJson "Video processed with all streams." url)
      ∧ In {| video_name := "17-movie"; video_url := url |} listed.
Proof.
  split; [vm_compute; reflexivity|].
  refine (completed_job_is_listed (steady_probe one_video) ffmpeg_ok "/srv/output"
            "/srv/uploads/17-movie.mkv" "17-movie.mkv" [] one_job_listing
            every_path_exists _ _ _ _ _).
  - vm_compute. reflexivity.
  - intros path content _. reflexivity.
  - reflexivity.
  - left. reflexivity.
Defined.

(** ** The commands of a job on a steady container *)

(** The commands of a loop whose iterations always run [out i x] are a
    beginning of these lists put end to end, and all of them when the loop
    completes. *)
Lemma for_indexed_commands {A St} (body : nat → A → St → M St)
    (out : nat → A → list Command) :
  (∀ i x s h, commands_of (body i x s h).2 = out i x) →
  ∀ xs i s h,
    ∃ rest,
      concat (map (λ p, out p.1 p.2) (enumerate_from i xs))
      = commands_of (for_indexed body i xs s h).2 ++ rest
      ∧ (∀ s', (for_indexed body i xs s h).1 = inr s' → rest = []).
Proof.
  intros Hbody. induction xs as [|x xs IH]; intros i s h.
  - exists []. split; [reflexivity|auto].
  - rewrite for_indexed_cons. specialize (Hbody i x s h).
    destruct (body i x s h) as [[e|s1] t1]; cbn [fst snd] in *.
    + eexists. split; [simpl; rewrite Hbody; reflexivity|]. discriminate.
    + destruct (IH (S i) s1 (h ++ t1)) as (rest & Heq & Hdone).
      exists rest. split; [|exact Hdone].
      simpl. rewrite commands_of_app, Hbody, Heq, app_assoc. reflexivity.
Qed.

Section SteadyCommands.

Variable ffprobe : list Event → string → option Metadata.
Variable ffmpeg : list Event → Command → bool.
Variable filePath outputPath : string.
Variable metadata : Metadata.
Hypothesis probes_agree : steady ffprobe filePath metadata.

Lemma video_body_commands i streamIndex s h :
  commands_of (video_body ffprobe ffmpeg filePath outputPath i streamIndex s h).2
  = match md_streams metadata !! streamIndex with
    | Some info => [video_command filePath outputPath i streamIndex (isH264_of info)]
    | None => []
    end.
Proof.
  unfold video_body, streamInfo_at, bind, probe, run, ret, throw.
  rewrite probes_agree. simpl.
  destruct (md_streams metadata !! streamIndex); [|reflexivity].
  now destruct (ffmpeg _ _).
Qed.

Lemma audio_body_commands i streamIndex s h :
  commands_of (audio_body ffprobe ffmpeg filePath outputPath i streamIndex s h).2
  = [audio_command filePath outputPath i streamIndex (isAAC_of metadata streamIndex)].
Proof.
  unfold audio_body, isAudioStreamAAC, streamInfo_at, bind, probe, run, ret, throw.
  rewrite !probes_agree. simpl. now destruct (ffmpeg _ _).
Qed.

Lemma subtitle_body_commands i streamIndex s h :
  commands_of (subtitle_body ffprobe ffmpeg filePath outputPath i streamIndex s h).2
  = if accepted metadata (i, streamIndex)
    then [subtitle_command filePath outputPath i streamIndex] else [].
Proof.
  unfold subtitle_body, streamInfo_at, bind, probe, run, ret, throw, emit, accepted.
  rewrite probes_agree. simpl.
  destruct (md_streams metadata !! streamIndex) as [info|]; [|reflexivity].
  destruct (unsupported_subtitle info); [reflexivity|]. simpl.
  now destruct (ffmpeg _ _).
Qed.

End SteadyCommands.

Lemma createHLS_commands ffprobe ffmpeg outputDir filePath fileName metadata streams h :
  steady ffprobe filePath metadata →
  ∃ rest,
    expected_commands filePath (path_join outputDir fileName) metadata streams
    = commands_of
        (createHLSForStreams ffprobe ffmpeg outputDir filePath fileName streams h).2
      ++ rest
    ∧ (∀ url,
         (createHLSForStreams ffprobe ffmpeg outputDir filePath fileName streams h).1
         = inr url → rest = []).
Proof.
  intros Hsteady. rewrite createHLS_run. cbv zeta.
  set (outputPath := path_join outputDir fileName).
  set (h0 := h ++ [EvMkdir outputPath]).
  unfold expected_commands.
  rewrite <- (concat_singletons
                (λ p, audio_command filePath outputPath p.1 p.2 (isAAC_of metadata p.2))).
  rewrite <- (concat_optional (accepted metadata)
                (λ p, subtitle_command filePath outputPath p.1 p.2)).
  destruct (for_indexed_commands _ _
              (video_body_commands ffprobe ffmpeg filePath outputPath metadata Hsteady)
              (video streams) 0 [] h0) as (rv & Hv & Hvdone).
  destruct (for_indexed (video_body _ _ _ _) _ _ _ _) as [[e|pl] t1];
    cbn [fst snd] in *.
  { eexists. split; [|discriminate]. simpl. rewrite Hv, <- app_assoc. reflexivity. }
  rewrite (Hvdone _ eq_refl), app_nil_r in Hv.
  destruct (for_indexed_commands _
              (λ i x, [audio_command filePath outputPath i x (isAAC_of metadata x)])
              (audio_body_commands ffprobe ffmpeg filePath outputPath metadata Hsteady)
              (audio streams) 0 [] (h0 ++ t1)) as (ra & Ha & Hadone).
  destruct (for_indexed (audio_body _ _ _ _) _ _ _ _) as [[e|au] t2];
    cbn [fst snd] in *.
  { eexists. split; [|discriminate]. simpl.
    rewrite commands_of_app, Hv, Ha, <- !app_assoc. reflexivity. }
  rewrite (Hadone _ eq_refl), app_nil_r in Ha.
  destruct (for_indexed_commands _
              (λ i x, if accepted metadata (i, x)
                      then [subtitle_command filePath outputPath i x] else [])
              (subtitle_body_commands ffprobe ffmpeg filePath outputPath metadata Hsteady)
              (subtitle streams) 0 [] ((h0 ++ t1) ++ t2)) as (rs & Hs & Hsdone).
  rewrite (map_ext _
             (λ p, if accepted metadata p
                   then [subtitle_command filePath outputPath p.1 p.2] else []))
    in Hs by (intros [i x]; reflexivity).
  destruct (for_indexed (subtitle_body _ _ _ _) _ _ _ _) as [[e|su] t3];
    cbn [fst snd] in *.
  { eexists. split; [|discriminate]. simpl.
    rewrite !commands_of_app, Hv, Ha, Hs, <- !app_assoc. reflexivity. }
  rewrite (Hsdone _ eq_refl), app_nil_r in Hs.
  exists []. split; [|reflexivity]. simpl.
  rewrite !commands_of_app, Hv, Ha, Hs. simpl. now rewrite !app_nil_r.
Qed.

(** X10: when every probe of a request reports the same container, the
    ffmpeg commands it runs are a beginning of the list the inventory
    dictates (video streams by position, then audio streams by position,
    then the subtitle streams that are not skipped, by position), and the
    whole list when the request is answered with success.  No command is
    ever run for a skipped subtitle stream, and a failed command is the
    last one. *)
Theorem commands_follow_the_inventory
    ffprobe ffmpeg outputDir file_path file_filename h metadata :
  steady ffprobe file_path metadata →
  ∃ rest,
    expected_commands file_path (path_join outputDir (path_parse_name file_filename))
      metadata (inventory metadata)
    = commands_of (upload ffprobe ffmpeg outputDir file_path file_filename h).2 ++ rest
    ∧ (completed (upload ffprobe ffmpeg outputDir file_path file_filename h).2 = true →
       rest = []).
Proof.
  intros Hsteady. rewrite upload_run, (Hsteady h). cbv zeta.
  destruct (createHLS_commands ffprobe ffmpeg outputDir file_path
              (path_parse_name file_filename) metadata (inventory metadata)
              (h ++ EvProbe file_path true :: stream_logs metadata) Hsteady)
    as (rest & Heq & Hdone).
  exists rest.
  destruct (createHLSForStreams _ _ _ _ _ _ _) as [[e|url] t]; cbn [fst snd] in *.
  - split.
    + rewrite !commands_of_app. cbn [commands_of]. unfold stream_logs.
      rewrite stream_logs_no_commands, app_nil_r. exact Heq.
    + rewrite app_assoc, failed_upload_not_completed. discriminate.
  - split; [|intros _; exact (Hdone _ eq_refl)].
    rewrite !commands_of_app. cbn [commands_of]. unfold stream_logs.
    rewrite stream_logs_no_commands, app_nil_r. exact Heq.
Qed.

Lemma commands_follow_the_inventory_witness :
  steady (steady_probe mixed_container) "/srv/uploads/17-movie.mkv" mixed_container
  ∧ ∃ rest,
      expected_commands "/srv/uploads/17-movie.mkv" "/srv/output/17-movie"
        mixed_container (inventory mixed_container)
      = commands_of
          (upload (steady_probe mixed_container) ffmpeg_without_aac_encoder
             "/srv/output" "/srv/uploads/17-movie.mkv" "17-movie.mkv" []).2 ++ rest
      ∧ (completed
           (upload (steady_probe mixed_container) ffmpeg_without_aac_encoder
              "/srv/output" "/srv/uploads/17-movie.mkv" "17-movie.mkv" []).2 = true →
         rest = []).
Proof.
  split; [intros h; reflexivity|].
  refine (commands_follow_the_inventory (steady_probe mixed_container)
            ffmpeg_without_aac_encoder "/srv/output" "/srv/uploads/17-movie.mkv"
            "17-movie.mkv" [] mixed_container _).
  intros h. reflexivity.
Defined.

(** ** What a job writes *)

Lemma for_indexed_count_eq {A St} (body : nat → A → St → M St) p q :
  (∀ i x s h, count_events p (body i x s h).2 = count_events q (body i x s h).2) →
  ∀ xs i s h,
    count_events p (for_indexed body i xs s h).2
    = count_events q (for_indexed body i xs s h).2.
Proof.
  intros Hbody. induction xs as [|x xs IH]; intros i s h; [reflexivity|].
  rewrite for_indexed_cons. specialize (Hbody i x s h).
  destruct (body i x s h) as [[e|s1] t1]; cbn [fst snd] in *; [exact Hbody|].
  now rewrite !count_events_app, Hbody, IH.
Qed.

Lemma video_body_writes ffprobe ffmpeg filePath outputPath i streamIndex s h :
  count_events is_write
    (video_body ffprobe ffmpeg filePath outputPath i streamIndex s h).2
  = count_events is_extracted
      (video_body ffprobe ffmpeg filePath outputPath i streamIndex s h).2.
Proof.
  unfold video_body, streamInfo_at, bind, probe, run, ret, throw.
  repeat case_match; simplify_eq; reflexivity.
Qed.

Lemma audio_body_writes ffprobe ffmpeg filePath outputPath i streamIndex s h :
  count_events is_write
    (audio_body ffprobe ffmpeg filePath outputPath i streamIndex s h).2
  = count_events is_extracted
      (audio_body ffprobe ffmpeg filePath outputPath i streamIndex s h).2.
Proof.
  unfold audio_body, isAudioStreamAAC, streamInfo_at, bind, probe, run, ret, throw.
  repeat case_match; simplify_eq; reflexivity.
Qed.

Lemma subtitle_body_writes ffprobe ffmpeg filePath outputPath i streamIndex s h :
  count_events is_write
    (subtitle_body ffprobe ffmpeg filePath outputPath i streamIndex s h).2
  = count_events is_extracted
      (subtitle_body ffprobe ffmpeg filePath outputPath i streamIndex s h).2.
Proof.
  unfold subtitle_body, streamInfo_at, bind, probe, run, ret, throw, emit.
  repeat case_match; simplify_eq; reflexivity.
Qed.

(** X11: the files a request writes itself are one stream-local playlist
    per subtitle track that ffmpeg extracted without error, plus the master
    playlist when the request is answered with success; a video or audio
    generation, a skipped subtitle stream and a failed extraction make it
    write nothing. *)
Theorem writes_match_extractions
    ffprobe ffmpeg outputDir file_path file_filename h :
  let tr := (upload ffprobe ffmpeg outputDir file_path file_filename h).2 in
  count_events is_write tr
  = count_events is_extracted tr + (if completed tr then 1 else 0).
Proof.
  intros tr. subst tr. rewrite upload_run.
  destruct (ffprobe h file_path) as [md|]; [|reflexivity]. cbv zeta.
  set (fileName := path_parse_name file_filename).
  set (h1 := h ++ EvProbe file_path true :: stream_logs md).
  assert (∀ p, (∀ msg, p (EvLog msg) = false) → p (EvProbe file_path true) = false →
               count_events p (EvProbe file_path true :: stream_logs md) = 0) as Hlogs.
  { intros p Hlog Hprobe. simpl. rewrite Hprobe. unfold stream_logs.
    now rewrite stream_logs_count. }
  rewrite createHLS_run. cbv zeta.
  set (outputPath := path_join outputDir fileName).
  set (h0 := h1 ++ [EvMkdir outputPath]).
  pose proof (for_indexed_count_eq _ is_write is_extracted
                (video_body_writes ffprobe ffmpeg file_path outputPath)
                (video (inventory md)) 0 [] h0) as Hv.
  destruct (for_indexed (video_body _ _ _ _) _ _ _ _) as [[e|pl] t1];
    cbn [fst snd] in *.
  { rewrite app_assoc, failed_upload_not_completed, !count_events_app.
    rewrite !Hlogs by reflexivity. simpl. lia. }
  pose proof (for_indexed_count_eq _ is_write is_extracted
                (audio_body_writes ffprobe ffmpeg file_path outputPath)
                (audio (inventory md)) 0 [] (h0 ++ t1)) as Ha.
  destruct (for_indexed (audio_body _ _ _ _) _ _ _ _) as [[e|au] t2];
    cbn [fst snd] in *.
  { rewrite app_assoc, failed_upload_not_completed, !count_events_app.
    rewrite !Hlogs by reflexivity. simpl. rewrite !count_events_app. lia. }
  pose proof (for_indexed_count_eq _ is_write is_extracted
                (subtitle_body_writes ffprobe ffmpeg file_path outputPath)
                (subtitle (inventory md)) 0 [] ((h0 ++ t1) ++ t2)) as Hs.
  destruct (for_indexed (subtitle_body _ _ _ _) _ _ _ _) as [[e|su] t3];
    cbn [fst snd] in *.
  { rewrite app_assoc, failed_upload_not_completed, !count_events_app.
    rewrite !Hlogs by reflexivity. simpl. rewrite !count_events_app. lia. }
  rewrite app_assoc, completed_snoc, !count_events_app.
  rewrite !Hlogs by reflexivity. simpl. rewrite !count_events_app. simpl. lia.
Qed.

(** ** The shape of a job name *)

Lemma all_chars_before_last_dot p s :
  all_chars p s = true → all_chars p (before_last_dot s) = true.
Proof.
  induction s as [|c s IH]; [reflexivity|]. cbn [before_last_dot all_chars].
  intros H. apply andb_true_iff in H as [Hc Hs].
  destruct (has_dot s).
  - cbn [all_chars]. now rewrite Hc, IH.
  - destruct (Ascii.eqb c "."); [reflexivity|]. cbn [all_chars]. now rewrite Hc, Hs.
Qed.

Lemma job_name_text now name :
  no_slash name = true →
  job_name {| clock := now; originalname := name |}
  = pretty now +:+ "-" +:+ before_last_dot name.
Proof.
  intros Hname. rewrite job_name_split by exact Hname.
  now rewrite (before_last_dot_prefix "-" name).
Qed.

(** X12: for a file name without path separator, the job name is the clock
    reading in decimal, a dash, and the file name cut at its last dot.  It
    starts with a digit and holds no path separator, so it is neither
    empty nor [.] nor [..]: the job directory is one proper entry of the
    output directory. *)
Theorem job_name_is_one_path_component (s : Submission) :
  no_slash (originalname s) = true →
  job_name s = pretty (clock s) +:+ "-" +:+ before_last_dot (originalname s)
  ∧ no_slash (job_name s) = true
  ∧ ∃ c rest, job_name s = String c rest ∧ is_digit c = true.
Proof.
  destruct s as [now name]. simpl. intros Hname.
  rewrite (job_name_text _ _ Hname).
  destruct (pretty_N_digits now) as [Hdigits Hne].
  split; [reflexivity|]. split.
  - unfold no_slash. rewrite !all_chars_append, !andb_true_iff. repeat split.
    + eapply all_chars_impl; [apply digit_not_slash|exact Hdigits].
    + now apply all_chars_before_last_dot.
  - destruct (pretty now) as [|c p]; [congruence|].
    exists c, (p +:+ "-" +:+ before_last_dot name). split; [reflexivity|].
    simpl in Hdigits. now apply andb_true_iff in Hdigits as [Hc _].
Qed.

Lemma job_name_is_one_path_component_witness :
  no_slash "my.movie.mkv" = true
  ∧ job_name {| clock := 1700000000000; originalname := "my.movie.mkv" |}
    = "1700000000000-my.movie".
Proof.
  split; [reflexivity|].
  etransitivity.
  - exact (proj1 (job_name_is_one_path_component
                    {| clock := 1700000000000; originalname := "my.movie.mkv" |}
                    eq_refl)).
  - vm_compute. reflexivity.
Defined.

(** Digits, a dash and a rest can be read back in one way only. *)
Lemma digits_dash_inj d1 : ∀ d2 r1 r2,
  all_chars is_digit d1 = true → all_chars is_digit d2 = true →
  d1 +:+ String "-" r1 = d2 +:+ String "-" r2 →
  d1 = d2 ∧ r1 = r2.
Proof.
  induction d1 as [|c d1 IH]; intros [|c' d2] r1 r2 H1 H2 Heq.
  - now injection Heq as ->.
  - change (String "-" r1 = String c' (d2 +:+ String "-" r2)) in Heq.
    injection Heq as <- _. discriminate.
  - change (String c (d1 +:+ String "-" r1) = String "-" r2) in Heq.
    injection Heq as -> _. discriminate.
  - change (String c (d1 +:+ String "-" r1) = String c' (d2 +:+ String "-" r2)) in Heq.
    injection Heq as -> Heq. simpl in H1, H2.
    apply andb_true_iff in H1 as [_ H1]. apply andb_true_iff in H2 as [_ H2].
    destruct (IH _ _ _ H1 H2 Heq) as [-> ->]. auto.
Qed.

(** X13: two submissions of file names without path separator get the same
    job name exactly when they read the same millisecond from the clock
    and their file names agree up to the last dot: the extension plays no
    part, so [a.mkv] and [a.mp4] sent in the same millisecond share one
    job directory. *)
Theorem job_names_collide_iff (s1 s2 : Submission) :
  no_slash (originalname s1) = true →
  no_slash (originalname s2) = true →
  job_name s1 = job_name s2
  ↔ clock s1 = clock s2
    ∧ before_last_dot (originalname s1) = before_last_dot (originalname s2).
Proof.
  destruct s1 as [t1 n1], s2 as [t2 n2]. simpl. intros H1 H2.
  rewrite !job_name_text by assumption. split.
  - intros Heq.
    apply digits_dash_inj in Heq as [Ht Hn];
      [|apply pretty_N_digits|apply pretty_N_digits].
    split; [now apply (inj pretty)|exact Hn].
  - now intros [-> ->].
Qed.

Lemma job_names_collide_iff_witness :
  no_slash "a.mkv" = true ∧ no_slash "a.mp4" = true
  ∧ job_name {| clock := 1700000000000; originalname := "a.mkv" |}
    = job_name {| clock := 1700000000000; originalname := "a.mp4" |}.
Proof.
  split; [reflexivity|]. split; [reflexivity|].
  apply (job_names_collide_iff
           {| clock := 1700000000000; originalname := "a.mkv" |}
           {| clock := 1700000000000; originalname := "a.mp4" |});
    [reflexivity|reflexivity|].
  split; reflexivity.
Defined.

(** ** The groups a master playlist names *)

(** The groups named by the entries of a job. *)
Lemma entries_of_job_groups streams audioEntries subtitleEntries playlistEntries :
  entries_of_job streams audioEntries subtitleEntries playlistEntries →
  Forall (λ line, quoted_attribute "GROUP-ID" line = Some "audio") audioEntries
  ∧ Forall (λ line, quoted_attribute "GROUP-ID" line = Some "subs") subtitleEntries
  ∧ Forall (λ line, quoted_attribute "AUDIO" line = Some "audios"
                    ∧ quoted_attribute "SUBTITLES" line = Some "subs")
           playlistEntries.
Proof.
  intros ((outsA & -> & HA) & (outsS & -> & HS) & ->). repeat split.
  - apply Forall_concat. induction HA as [|p out ps outs (lang & ->) _ IH];
      constructor; [|exact IH].
    constructor; [reflexivity|constructor].
  - apply Forall_concat. induction HS as [|p out ps outs [->|(lang & ->)] _ IH];
      constructor; try exact IH.
    + constructor.
    + constructor; [reflexivity|constructor].
  - apply Forall_map, Forall_forall. intros p _. split; reflexivity.
Qed.

(** X14: the master playlist of every request answered with success is the
    entries of that job, separated by one line feed each: one audio entry
    per audio stream of the inventory, at most one subtitle entry per
    subtitle stream, as many as subtitle tracks were extracted, and one
    video entry per video stream.  Each of these audio entries declares
    the group [audio] and each subtitle entry the group [subs], while each
    video entry refers to the subtitle group [subs] and to an audio group
    [audios]: the audio group the variants name is not the one the audio
    renditions declare. *)
Theorem playlist_groups
    ffprobe ffmpeg outputDir file_path file_filename h :
  completed (upload ffprobe ffmpeg outputDir file_path file_filename h).2 = true →
  ∃ metadata audioEntries subtitleEntries playlistEntries,
    ffprobe h file_path = Some metadata
    ∧ writes_to (path_join outputDir (path_parse_name file_filename) +:+ "/master.m3u8")
        (upload ffprobe ffmpeg outputDir file_path file_filename h).2
      = [join nl (audioEntries ++ subtitleEntries ++ playlistEntries)]
    ∧ entries_of_job (inventory metadata) audioEntries subtitleEntries playlistEntries
    ∧ length subtitleEntries
      = count_events is_extracted
          (upload ffprobe ffmpeg outputDir file_path file_filename h).2
    ∧ Forall (λ line, quoted_attribute "GROUP-ID" line = Some "audio") audioEntries
    ∧ Forall (λ line, quoted_attribute "GROUP-ID" line = Some "subs") subtitleEntries
    ∧ Forall (λ line, quoted_attribute "AUDIO" line = Some "audios"
                      ∧ quoted_attribute "SUBTITLES" line = Some "subs")
             playlistEntries.
Proof.
  intros Hdone.
  destruct (upload_job_entries _ _ _ _ _ _ Hdone)
    as (md & A & S & V & Hp & Hw & Hentries & Hcount & _).
  exists md, A, S, V.
  do 4 (split; [assumption|]).
  exact (entries_of_job_groups _ _ _ _ Hentries).
Qed.

Lemma playlist_groups_witness :
  completed
    (upload (steady_probe mixed_container) ffmpeg_ok "/srv/output"
       "/srv/uploads/17-movie.mkv" "17-movie.mkv" []).2 = true
  ∧ ∃ metadata audioEntries subtitleEntries playlistEntries,
      steady_probe mixed_container [] "/srv/uploads/17-movie.mkv" = Some metadata
      ∧ writes_to "/srv/output/17-movie/master.m3u8"
          (upload (steady_probe mixed_container) ffmpeg_ok "/srv/output"
             "/srv/uploads/17-movie.mkv" "17-movie.mkv" []).2
        = [join nl (audioEntries ++ subtitleEntries ++ playlistEntries)]
      ∧ entries_of_job (inventory metadata) audioEntries subtitleEntries playlistEntries
      ∧ length subtitleEntries
        = count_events is_extracted
            (upload (steady_probe mixed_container) ffmpeg_ok "/srv/output"
               "/srv/uploads/17-movie.mkv" "17-movie.mkv" []).2
      ∧ Forall (λ line, quoted_attribute "GROUP-ID" line = Some "audio") audioEntries
      ∧ Forall (λ line, quoted_attribute "GROUP-ID" line = Some "subs") subtitleEntries
      ∧ Forall (λ line, quoted_attribute "AUDIO" line = Some "audios"
                        ∧ quoted_attribute "SUBTITLES" line = Some "subs")
               playlistEntries.
Proof.
  split; [vm_compute; reflexivity|].
  refine (playlist_groups (steady_probe mixed_container) ffmpeg_ok
            "/srv/output" "/srv/uploads/17-movie.mkv" "17-movie.mkv" [] _).
  vm_compute. reflexivity.
Defined.

(** ** A container without video, audio or subtitle streams *)

(** X15: when the first probe reports no video, audio or subtitle stream
    (an empty container, or one with streams of other types only), the
    request is answered with success all the same: after the analysis it
    creates the job directory, runs no probe and no command, writes an
    empty master playlist and returns its URL. *)
Theorem empty_inventory_gives_empty_playlist
    ffprobe ffmpeg outputDir file_path file_filename h metadata :
  ffprobe h file_path = Some metadata →
  inventory metadata = {| video := []; audio := []; subtitle := [] |} →
  (upload ffprobe ffmpeg outputDir file_path file_filename h).2
  = (EvProbe file_path true :: stream_logs metadata)
    ++ [EvMkdir (path_join outputDir (path_parse_name file_filename));
        EvWriteFile (path_join outputDir (path_parse_name file_filename)
                     +:+ "/master.m3u8") EmptyString;
        EvJson "Video processed with all streams."
          ("/streams/" +:+ path_parse_name file_filename +:+ "/master.m3u8")].
Proof.
  intros Hp Hinv. rewrite upload_run, Hp. cbv zeta.
  rewrite createHLS_run, Hinv. reflexivity.
Qed.

Lemma empty_inventory_gives_empty_playlist_witness :
  inventory {| md_streams := [sample_stream "data" "bin_data" None] |}
  = {| video := []; audio := []; subtitle := [] |}
  ∧ writes_to "/srv/output/17-movie/master.m3u8"
      (upload (steady_probe {| md_streams := [sample_stream "data" "bin_data" None] |})
         ffmpeg_ok "/srv/output" "/srv/uploads/17-movie.mkv" "17-movie.mkv" []).2
    = [EmptyString].
Proof.
  split; [reflexivity|].
  rewrite (empty_inventory_gives_empty_playlist
             (steady_probe {| md_streams := [sample_stream "data" "bin_data" None] |})
             ffmpeg_ok "/srv/output" "/srv/uploads/17-movie.mkv" "17-movie.mkv" []
             {| md_streams := [sample_stream "data" "bin_data" None] |}
             eq_refl eq_refl).
  vm_compute. reflexivity.
Defined.

(** ** Why a request on a steady container fails *)

Lemma for_indexed_error {A St} (body : nat → A → St → M St)
    (P : Error → Prop) (Q : A → Prop) :
  (∀ i x s h e t, Q x → body i x s h = (inl e, t) → P e) →
  ∀ xs, Forall Q xs →
  ∀ i s h e t, for_indexed body i xs s h = (inl e, t) → P e.
Proof.
  intros Hbody xs Hxs. induction Hxs as [|x xs Hx _ IH]; intros i s h e t.
  - rewrite for_indexed_nil. discriminate.
  - rewrite for_indexed_cons.
    destruct (body i x s h) as [[e1|s1] t1] eqn:Hb.
    + intros [= <- _]. exact (Hbody _ _ _ _ _ _ Hx Hb).
    + destruct (for_indexed body (S i) xs s1 (h ++ t1)) as [r t2] eqn:Hl.
      simpl. intros [= -> _]. exact (IH _ _ _ _ _ Hl).
Qed.

Lemma inventory_in_range (bucket : Streams → list nat) (ty : string) metadata :
  (∀ index stream streams,
     bucket (classify index stream streams)
     = if streq (codec_type stream) ty
       then bucket streams ++ [index] else bucket streams) →
  bucket {| video := []; audio := []; subtitle := [] |} = [] →
  Forall (λ streamIndex, is_Some (md_streams metadata !! streamIndex))
    (bucket (inventory metadata)).
Proof.
  intros Hclassify Hempty. apply Forall_forall. intros idx Hin.
  apply list_elem_of_In in Hin.
  apply (inventory_from_bucket bucket ty Hclassify) in Hin
    as [Hin|(k & info & -> & Hk & _)].
  - rewrite Hempty in Hin. destruct Hin.
  - simpl. eauto.
Qed.

Section SteadyFailures.

Variable ffprobe : list Event → string → option Metadata.
Variable ffmpeg : list Event → Command → bool.
Variable filePath outputPath : string.
Variable metadata : Metadata.
Hypothesis probes_agree : steady ffprobe filePath metadata.

Lemma video_body_error i streamIndex s h e t :
  is_Some (md_streams metadata !! streamIndex) →
  video_body ffprobe ffmpeg filePath outputPath i streamIndex s h = (inl e, t) →
  e = FfmpegError.
Proof.
  intros [info Hinfo].
  unfold video_body, streamInfo_at, bind, probe, run, ret, throw.
  rewrite probes_agree, Hinfo. simpl.
  destruct (ffmpeg _ _); simpl; congruence.
Qed.

Lemma audio_body_error i streamIndex s h e t :
  True →
  audio_body ffprobe ffmpeg filePath outputPath i streamIndex s h = (inl e, t) →
  e = FfmpegError.
Proof.
  intros _.
  unfold audio_body, isAudioStreamAAC, streamInfo_at, bind, probe, run, ret, throw.
  rewrite !probes_agree. simpl.
  destruct (ffmpeg _ _); simpl; congruence.
Qed.

Lemma subtitle_body_error i streamIndex s h e t :
  is_Some (md_streams metadata !! streamIndex) →
  subtitle_body ffprobe ffmpeg filePath outputPath i streamIndex s h = (inl e, t) →
  e = FfmpegError.
Proof.
  intros [info Hinfo].
  unfold subtitle_body, streamInfo_at, bind, probe, run, ret, throw, emit.
  rewrite probes_agree, Hinfo. simpl.
  destruct (unsupported_subtitle info); simpl; [discriminate|].
  destruct (ffmpeg _ _); simpl; congruence.
Qed.

End SteadyFailures.

Lemma createHLS_error ffprobe ffmpeg outputDir filePath fileName metadata h e t :
  steady ffprobe filePath metadata →
  createHLSForStreams ffprobe ffmpeg outputDir filePath fileName (inventory metadata) h
    = (inl e, t) →
  e = FfmpegError.
Proof.
  intros Hsteady. rewrite createHLS_run. cbv zeta.
  destruct (for_indexed (video_body _ _ _ _) _ _ _ _) as [[e1|pl] t1] eqn:Hv.
  { intros [= <- _]. revert Hv.
    apply (for_indexed_error _ (λ e, e = FfmpegError)
             (λ x, is_Some (md_streams metadata !! x))).
    - intros i x s h' e' t'. exact (video_body_error _ _ _ _ _ Hsteady _ _ _ _ _ _).
    - now apply (inventory_in_range video "video" metadata classify_video). }
  destruct (for_indexed (audio_body _ _ _ _) _ _ _ _) as [[e2|au] t2] eqn:Ha.
  { intros [= <- _]. revert Ha.
    apply (for_indexed_error _ (λ e, e = FfmpegError) (λ _, True)).
    - intros i x s h' e' t'. exact (audio_body_error _ _ _ _ _ Hsteady _ _ _ _ _ _).
    - apply Forall_forall. auto. }
  destruct (for_indexed (subtitle_body _ _ _ _) _ _ _ _) as [[e3|su] t3] eqn:Hs.
  { intros [= <- _]. revert Hs.
    apply (for_indexed_error _ (λ e, e = FfmpegError)
             (λ x, is_Some (md_streams metadata !! x))).
    - intros i x s h' e' t'. exact (subtitle_body_error _ _ _ _ _ Hsteady _ _ _ _ _ _).
    - now apply (inventory_in_range subtitle "subtitle" metadata classify_subtitle). }
  discriminate.
Qed.


